(** * perceptor-scanner: the polling / provisioning / reporting loop

    A shallow embedding of [pkg/scanner/scanner.go] and the properties of
    its polling-execution-reporting loop.

    The Go code talks to the outside world (process environment, HTTP
    coordinator, scan-tool download, scan executor, timer and stop
    channel, logs and metrics).  The embedding keeps all of that in an
    explicit [World]: every effect is appended to a trace, and every
    answer of the outside world is read from an oracle indexed by the
    number of calls of that kind found in the trace so far.  Loops that Go writes as
    [for { ... }] take a fuel argument; a run that has not returned when
    the fuel is spent yields [None] together with the world reached. *)

From stdpp Require Import base strings gmap list pretty.
From Stdlib Require Import ZArith Lia Ascii.

Local Open Scope string_scope.
Local Open Scope Z_scope.
Local Open Scope list_scope.

(** ** Go values *)

(** A Go [error] value is represented by its message ([err.Error()]);
    a nil error is [None] where an [option error] is returned. *)
Definition error : Type := string.

(** The pair [(value, error)] returned by fallible Go functions: every
    [return] of the source gives either [(v, nil)] or [(nil, err)]. *)
Inductive result (A : Type) : Type :=
| Ok (a : A)
| Err (e : error).
Arguments Ok {A} a.
Arguments Err {A} e.

(** [time.Duration] is an int64 count of nanoseconds. *)
Definition wrap64 (z : Z) : Z := (z + 2 ^ 63) `mod` 2 ^ 64 - 2 ^ 63.
Definition time_Second : Z := 1000000000.

(** [const requestScanJobPause = 20 * time.Second] *)
Definition requestScanJobPause : Z := 20 * time_Second.

(** [%d] of [fmt]: decimal rendering of an integer. *)
Definition fmt_d (n : Z) : string := pretty n.

(** ** Data model *)

(** Modelled from the spec: the [api] package of the coordinator is not
    part of the sources; section 6 gives the JSON shape of an ImageSpec,
    a NextImage and a finished-job report. *)
Record ImageSpec : Type := {
  Repository : string;
  Sha : string;
  HubURL : string;
  HubProjectName : string;
  HubProjectVersionName : string;
  HubScanName : string
}.

(** [api.NextImage]: [ImageSpec *ImageSpec], nil when there is no work. *)
Record NextImage : Type := {
  NextImage_ImageSpec : option ImageSpec
}.

(** [api.FinishedScanClientJob] *)
Record FinishedScanClientJob : Type := {
  Finished_Err : string;
  Finished_ImageSpec : ImageSpec
}.

(** Modelled from the spec: the [Config] type is declared outside
    [scanner.go]; section 3 lists the coordinator host and port, the
    credential-source settings and the image-pull-helper host and port.
    Field names are the ones [scanner.go] reads. *)
Record HubConfig : Type := {
  Hub_User : string;
  Hub_PasswordEnvVar : string;
  Hub_Port : Z;
  Hub_ClientTimeoutSeconds : Z
}.

Record PerceptorConfig : Type := {
  Perceptor_Host : string;
  Perceptor_Port : Z
}.

Record ImageFacadeConfig : Type := {
  ImageFacade_Host : string;
  ImageFacade_Port : Z
}.

Record Config : Type := {
  Hub : HubConfig;
  Perceptor : PerceptorConfig;
  ImageFacade : ImageFacadeConfig
}.

(** [http.Client{Timeout: ...}] *)
Record HttpClient : Type := {
  Timeout : Z
}.

(** A [<-chan struct{}]: channels are told apart by an identifier. *)
Definition Chan : Type := nat.

(** The two cases of the [select] of the polling loop. *)
Inductive Wake : Type :=
| StopFired
| TimerFired.

(** What [httpClient.Post] gives back: a transport error, or a response
    with its status code and what [ioutil.ReadAll(resp.Body)] yields. *)
Inductive PostResult : Type :=
| PostErr (e : error)
| PostResp (status : Z) (body : result string).

Inductive Level : Type := Debug | Info | Error.

(** Arguments of a log format string, kept unrendered. *)
Inductive LogArg : Type :=
| AStr (s : string)
| AInt (n : Z)
| AConfig (c : Config)
| AImage (i : ImageSpec)
| AFinished (f : FinishedScanClientJob).

Section Scanner.

(** The collaborators of [scanner.go] that live in other files of the
    package: the tool descriptor returned by the downloader, the
    image-pull helper, the scan executor and the scan-job descriptor. *)
Context {ScanClientInfo ImagePuller ScanClient ScanJob : Type}.

(** Observable effects, in the order the program performs them. *)
Inductive Event : Type :=
| EvLog (l : Level) (format : string) (args : list LogArg)
| EvLookupEnv (key : string)
| EvSetenv (key value : string)
| EvPost (client : HttpClient) (url contentType body : string)
| EvBodyClose (post : nat)
| EvScannerError (label : string)
| EvHTTPStats (path : string) (status : Z)
| EvDownload (hubURL user password : string) (port timeout : Z)
| EvNewHubScanClient (user : string) (port : Z) (info : ScanClientInfo)
    (puller : ImagePuller)
| EvScan (client : ScanClient) (job : ScanJob)
| EvSelect (stop : Chan) (pause : Z) (wake : Wake).

(** The outside world as the program sees it. *)
Record World : Type := {
  env : gmap string string;
  trace : list Event
}.

Definition is_post (e : Event) : bool :=
  match e with EvPost _ _ _ _ => true | _ => false end.
Definition is_download (e : Event) : bool :=
  match e with EvDownload _ _ _ _ _ => true | _ => false end.
Definition is_build (e : Event) : bool :=
  match e with EvNewHubScanClient _ _ _ _ => true | _ => false end.
Definition is_scan (e : Event) : bool :=
  match e with EvScan _ _ => true | _ => false end.
Definition is_select (e : Event) : bool :=
  match e with EvSelect _ _ _ => true | _ => false end.

Definition count (f : Event -> bool) (evs : list Event) : nat :=
  length (List.filter f evs).

(** How many calls of each kind the world has seen. *)
Definition posts (w : World) : nat := count is_post (trace w).
Definition downloads (w : World) : nat := count is_download (trace w).
Definition builds (w : World) : nat := count is_build (trace w).
Definition scans (w : World) : nat := count is_scan (trace w).
Definition selects (w : World) : nat := count is_select (trace w).

(** Everything [scanner.go] calls but does not define.  Calls whose
    answer may change from one call to the next take the index of the
    call as first argument. *)
Record Externals : Type := {
  NextImagePath : string;
  FinishedScanPath : string;
  json_Unmarshal : string -> result NextImage;
  json_Marshal : FinishedScanClientJob -> result string;
  http_Post : nat -> HttpClient -> string -> string -> string -> PostResult;
  downloadScanClient :
    nat -> string -> string -> string -> Z -> Z -> result ScanClientInfo;
  ImageFacade_GetHost : ImageFacadeConfig -> string;
  NewImageFacadePuller : string -> Z -> ImagePuller;
  NewHubScanClient :
    nat -> string -> Z -> ScanClientInfo -> ImagePuller -> result ScanClient;
  NewScanJob : string -> string -> string -> string -> string -> string -> ScanJob;
  ScanClient_Scan : nat -> ScanClient -> ScanJob -> option error;
  select_stop_or_timer : nat -> Chan -> Z -> Wake
}.

(** [type Scanner struct].  [scanClient] is a nil-able interface value;
    [config] is kept by value (the spec has it immutable after load). *)
Record Scanner : Type := {
  scanClient : option ScanClient;
  httpClient : HttpClient;
  perceptorHost : string;
  perceptorPort : Z;
  config : Config;
  stop : Chan;
  hubPassword : string
}.

(** ** The effect monad *)

(** A computation runs on a world and either returns a value or is
    still running when its fuel is spent; the world is kept in both
    cases, so that the trace of an unfinished run can be inspected. *)
Definition M (A : Type) : Type := World -> option A * World.

Definition ret {A} (a : A) : M A := fun w => (Some a, w).

Definition bind {A B} (m : M A) (k : A -> M B) : M B :=
  fun w => match m w with
           | (Some a, w') => k a w'
           | (None, w') => (None, w')
           end.

Definition out_of_fuel {A} : M A := fun w => (None, w).

#[export] Instance M_ret : MRet M := @ret.
#[export] Instance M_bind : MBind M := fun A B k m => bind m k.

Definition add_event (e : Event) (w : World) : World :=
  {| env := env w; trace := trace w ++ [e] |}.

Definition emit (e : Event) : M unit := fun w => (Some tt, add_event e w).

(** [log.Debug], [log.Debugf], [log.Infof], [log.Error], [log.Errorf] *)
Definition log (l : Level) (format : string) (args : list LogArg) : M unit :=
  emit (EvLog l format args).

(** The metrics sink: [recordScannerError] and [recordHTTPStats]. *)
Definition recordScannerError (label : string) : M unit :=
  emit (EvScannerError label).

Definition recordHTTPStats (path : string) (status : Z) : M unit :=
  emit (EvHTTPStats path status).

(** *** Process environment (package [os], Unix) *)

Definition NUL : ascii := Ascii.zero.

Fixpoint has_byte (c : ascii) (s : string) : bool :=
  match s with
  | EmptyString => false
  | String a s' => if Ascii.eqb a c then true else has_byte c s'
  end.

(** [os.LookupEnv]: the empty key is never found. *)
Definition getenv (e : gmap string string) (key : string) : option string :=
  if String.eqb key EmptyString then None else e !! key.

Definition os_LookupEnv (key : string) : M (option string) := fun w =>
  (Some (getenv (env w) key), add_event (EvLookupEnv key) w).

Definition set_env (e : gmap string string) (w : World) : World :=
  {| env := e; trace := trace w |}.

(** [os.Setenv]: EINVAL for an empty key, a key holding [=] or NUL, or a
    value holding NUL; otherwise the variable is set. *)
Definition setenv_invalid (key value : string) : bool :=
  String.eqb key EmptyString || has_byte "="%char key || has_byte NUL key
  || has_byte NUL value.

Definition os_Setenv (key value : string) : M (option error) := fun w =>
  if setenv_invalid key value
  then (Some (Some "setenv: invalid argument"), add_event (EvSetenv key value) w)
  else (Some None,
        add_event (EvSetenv key value) (set_env (<[key := value]> (env w)) w)).

(** *** Calls to the outside world *)

Context (X : Externals).

(** [client.Post(url, contentType, body)].  The index of the POST is
    returned with the answer: it names the response whose body is
    closed later. *)
Definition httpClient_Post (client : HttpClient) (url contentType body : string)
  : M (nat * PostResult) := fun w =>
  (Some (posts w, http_Post X (posts w) client url contentType body),
   add_event (EvPost client url contentType body) w).

Definition resp_Body_Close (post : nat) : M unit := emit (EvBodyClose post).

Definition call_downloadScanClient (hubURL user password : string)
    (port timeout : Z) : M (result ScanClientInfo) := fun w =>
  (Some (downloadScanClient X (downloads w) hubURL user password port timeout),
   add_event (EvDownload hubURL user password port timeout) w).

Definition call_NewHubScanClient (user : string) (port : Z)
    (info : ScanClientInfo) (puller : ImagePuller) : M (result ScanClient) :=
  fun w =>
  (Some (NewHubScanClient X (builds w) user port info puller),
   add_event (EvNewHubScanClient user port info puller) w).

Definition call_Scan (client : ScanClient) (job : ScanJob) : M (option error) :=
  fun w =>
  (Some (ScanClient_Scan X (scans w) client job),
   add_event (EvScan client job) w).

(** [select { case <-stop: ... case <-time.After(pause): ... }] *)
Definition select (stop : Chan) (pause : Z) : M Wake := fun w =>
  let wake := select_stop_or_timer X (selects w) stop pause in
  (Some wake, add_event (EvSelect stop pause wake) w).

(** ** The program *)

(** [func NewScanner]: from a config and a stop channel to a Scanner or
    an error. *)
Definition NewScanner (config : Config) (stop : Chan) : M (result Scanner) :=
  log Info "instantiating Scanner with config %+v" [AConfig config];;
  found ← os_LookupEnv (Hub_PasswordEnvVar (Hub config));
  match found with
  | None =>
      mret (Err ("unable to get Hub password: environment variable "
                 +:+ Hub_PasswordEnvVar (Hub config) +:+ " not set"))
  | Some hubPassword =>
      err ← os_Setenv "BD_HUB_PASSWORD" hubPassword;
      match err with
      | Some err =>
          log Error "unable to set BD_HUB_PASSWORD environment variable: %s"
            [AStr err];;
          mret (Err err)
      | None =>
          let httpClient := {| Timeout := 5 * time_Second |} in
          mret (Ok {| scanClient := None;
                      httpClient := httpClient;
                      perceptorHost := Perceptor_Host (Perceptor config);
                      perceptorPort := Perceptor_Port (Perceptor config);
                      config := config;
                      stop := stop;
                      hubPassword := hubPassword |})
      end
  end.

(** [func buildURL] (method of Scanner) *)
Definition buildURL (scanner : Scanner) (path : string) : string :=
  "http://" +:+ perceptorHost scanner +:+ ":" +:+ fmt_d (perceptorPort scanner)
  +:+ "/" +:+ path.

(** [func downloadScanner] (method of Scanner): the scan client or an
    error. *)
Definition downloadScanner (scanner : Scanner) (hubURL : string)
  : M (result ScanClient) :=
  let config := config scanner in
  got ← call_downloadScanClient
          hubURL
          (Hub_User (Hub config))
          (hubPassword scanner)
          (Hub_Port (Hub config))
          (wrap64 (Hub_ClientTimeoutSeconds (Hub config) * time_Second));
  match got with
  | Err err =>
      log Error "unable to download scan client: %s" [AStr err];;
      mret (Err err)
  | Ok scanClientInfo =>
      log Info "instantiating scanner with hub %s, user %s"
        [AStr hubURL; AStr (Hub_User (Hub config))];;
      let imagePuller :=
        NewImageFacadePuller X (ImageFacade_GetHost X (ImageFacade config))
          (ImageFacade_Port (ImageFacade config)) in
      made ← call_NewHubScanClient
               (Hub_User (Hub config))
               (Hub_Port (Hub config))
               scanClientInfo
               imagePuller;
      match made with
      | Err err =>
          log Error "unable to instantiate hub scan client: %s" [AStr err];;
          mret (Err err)
      | Ok scanClient => mret (Ok scanClient)
      end
  end.

(** [func requestScanJob] (method of Scanner): an ImageSpec pointer,
    nil when there is no work, or an error. *)
Definition requestScanJob (scanner : Scanner) : M (result (option ImageSpec)) :=
  let nextImageURL := buildURL scanner (NextImagePath X) in
  '(post, resp) ← httpClient_Post (httpClient scanner) nextImageURL EmptyString EmptyString;
  match resp with
  | PostErr err =>
      recordScannerError "unable to POST get next image";;
      log Error "unable to POST to %s: %s" [AStr nextImageURL; AStr err];;
      mret (Err err)
  | PostResp status body =>
      recordHTTPStats (NextImagePath X) status;;
      if negb (status =? 200)%Z then
        let err := "http POST request to " +:+ nextImageURL
                   +:+ " failed with status code " +:+ fmt_d status in
        log Error err [];;
        mret (Err err)
      else
        (* [defer resp.Body.Close()] runs when the function returns *)
        res ← match body with
              | Err err =>
                  recordScannerError "unable to read response body";;
                  log Error "unable to read response body from %s: %s"
                    [AStr nextImageURL; AStr err];;
                  mret (Err err)
              | Ok bodyBytes =>
                  match json_Unmarshal X bodyBytes with
                  | Err err =>
                      recordScannerError "unmarshaling JSON body failed";;
                      log Error
                        "unmarshaling JSON body bytes %s failed for URL %s: %s"
                        [AStr bodyBytes; AStr nextImageURL; AStr err];;
                      mret (Err err)
                  | Ok nextImage =>
                      let imageSha :=
                        match NextImage_ImageSpec nextImage with
                        | Some spec => Sha spec
                        | None => "null"
                        end in
                      log Debug "http POST request to %s succeeded, got image %s"
                        [AStr nextImageURL; AStr imageSha];;
                      mret (Ok (NextImage_ImageSpec nextImage))
                  end
              end;
        resp_Body_Close post;;
        mret res
  end.

(** The [for { ... }] of [finishScan].  [deferred] holds the responses
    whose [defer resp.Body.Close()] is pending, the latest first. *)
Fixpoint finishScan_loop (fuel : nat) (scanner : Scanner)
    (finishedScanURL jsonBytes : string) (deferred : list nat)
  : M (option error) :=
  match fuel with
  | O => out_of_fuel
  | S fuel' =>
      '(post, resp) ← httpClient_Post (httpClient scanner) finishedScanURL
                        "application/json" jsonBytes;
      match resp with
      | PostErr err =>
          recordScannerError "unable to POST finished job";;
          log Error "unable to POST to %s: %s" [AStr finishedScanURL; AStr err];;
          finishScan_loop fuel' scanner finishedScanURL jsonBytes deferred
      | PostResp status _ =>
          recordHTTPStats (FinishedScanPath X) status;;
          if negb (status =? 200)%Z then
            log Error "POST to %s failed with status code %d"
              [AStr finishedScanURL; AInt status];;
            finishScan_loop fuel' scanner finishedScanURL jsonBytes
              (post :: deferred)
          else
            log Info "POST to %s succeeded" [AStr finishedScanURL];;
            mapM resp_Body_Close (post :: deferred);;
            mret None
      end
  end.

(** [func finishScan] (method of Scanner): nil once the coordinator has
    accepted the report. *)
Definition finishScan (fuel : nat) (scanner : Scanner)
    (results : FinishedScanClientJob) : M (option error) :=
  let finishedScanURL := buildURL scanner (FinishedScanPath X) in
  match json_Marshal X results with
  | Err err =>
      recordScannerError "unable to marshal json for finished job";;
      log Error "unable to marshal json for finished job: %s" [AStr err];;
      mret (Some err)
  | Ok jsonBytes =>
      log Debug "about to send over json text for finishing a job: %s"
        [AStr jsonBytes];;
      finishScan_loop fuel scanner finishedScanURL jsonBytes []
  end.

(** [func requestAndRunScanJob] (method of Scanner).  The method
    assigns [scanner.scanClient]; the scanner as it stands when the
    method returns is given back with the error. *)
Definition requestAndRunScanJob (fuel : nat) (scanner : Scanner)
  : M (Scanner * option error) :=
  log Debug "requesting scan job" [];;
  got ← requestScanJob scanner;
  match got with
  | Err err =>
      log Error "unable to request scan job: %s" [AStr err];;
      mret (scanner, Some err)
  | Ok None =>
      log Debug "requested scan job, got nil" [];;
      mret (scanner, None)
  | Ok (Some image) =>
      log Info "processing scan job %+v" [AImage image];;
      provisioned ←
        match scanClient scanner with
        | None =>
            made ← downloadScanner scanner (HubURL image);
            match made with
            | Err err =>
                log Error "unable to download scan client from %s: %s"
                  [AStr (HubURL image); AStr err];;
                mret (Err err)
            | Ok scanClient => mret (Ok scanClient)
            end
        | Some scanClient => mret (Ok scanClient)
        end;
      match provisioned with
      | Err err => mret (scanner, Some err)
      | Ok client =>
          let scanner' :=
            {| scanClient := Some client;
               httpClient := httpClient scanner;
               perceptorHost := perceptorHost scanner;
               perceptorPort := perceptorPort scanner;
               config := config scanner;
               stop := stop scanner;
               hubPassword := hubPassword scanner |} in
          let job := NewScanJob X (Repository image) (Sha image) (HubURL image)
                       (HubProjectName image) (HubProjectVersionName image)
                       (HubScanName image) in
          err ← call_Scan client job;
          let errorString := match err with
                             | Some err => err
                             | None => EmptyString
                             end in
          let finishedJob := {| Finished_Err := errorString;
                                Finished_ImageSpec := image |} in
          log Info "about to finish job, going to send over %+v"
            [AFinished finishedJob];;
          err ← finishScan fuel scanner' finishedJob;
          match err with
          | Some err => log Error "unable to finish scan job: %s" [AStr err]
          | None => mret tt
          end;;
          mret (scanner', err)
      end
  end.

(** The goroutine started by [StartRequestingScanJobs]: the
    [for { select { ... } }] loop.  It gives back the scanner as it
    stands when the loop returns. *)
Fixpoint pollLoop (fuel : nat) (scanner : Scanner) : M Scanner :=
  match fuel with
  | O => out_of_fuel
  | S fuel' =>
      wake ← select (stop scanner) requestScanJobPause;
      match wake with
      | StopFired => mret scanner
      | TimerFired =>
          '(scanner', err) ← requestAndRunScanJob fuel' scanner;
          match err with
          | Some err =>
              log Error "unable to run requestAndRunScanJob: %s" [AStr err]
          | None => mret tt
          end;;
          pollLoop fuel' scanner'
      end
  end.

(** [func StartRequestingScanJobs] (method of Scanner).  The goroutine
    is the only task that touches the scanner; the embedding runs it in
    sequence after the log line. *)
Definition StartRequestingScanJobs (fuel : nat) (scanner : Scanner) : M Scanner :=
  log Info "starting to request scan jobs" [];;
  pollLoop fuel scanner.

End Scanner.

(** ** Observations on runs *)

Section Observations.

Context {ScanClientInfo ImagePuller ScanClient ScanJob : Type}.

Abbreviation Event := (@Event ScanClientInfo ImagePuller ScanClient ScanJob).
Abbreviation World := (@World ScanClientInfo ImagePuller ScanClient ScanJob).
Abbreviation Externals := (@Externals ScanClientInfo ImagePuller ScanClient ScanJob).
Abbreviation Scanner := (@Scanner ScanClient).

Context (X : Externals).

(** [record_events evs w]: the world [w] after the events [evs]. *)
Definition record_events (evs : list Event) (w : World) : World :=
  {| env := env w; trace := trace w ++ evs |}.

(** *** The report loop *)

Definition is200 (r : PostResult) : bool :=
  match r with
  | PostResp status _ => (status =? 200)%Z
  | PostErr _ => false
  end.

(** What one round of the report loop adds to the trace before it goes
    round again or returns. *)
Definition report_attempt (scanner : Scanner) (url js : string)
    (r : PostResult) : list Event :=
  EvPost (httpClient scanner) url "application/json" js ::
  match r with
  | PostErr err =>
      [EvScannerError "unable to POST finished job";
       EvLog Error "unable to POST to %s: %s" [AStr url; AStr err]]
  | PostResp status _ =>
      [EvHTTPStats (FinishedScanPath X) status;
       if negb (status =? 200)%Z
       then EvLog Error "POST to %s failed with status code %d"
              [AStr url; AInt status]
       else EvLog Info "POST to %s succeeded" [AStr url]]
  end.

(** The events the report loop can add: POSTs, metrics, log lines and
    body closes. *)
Definition is_report_event (e : Event) : bool :=
  match e with
  | EvPost _ _ _ _ | EvScannerError _ | EvHTTPStats _ _ | EvLog _ _ _
  | EvBodyClose _ => true
  | _ => false
  end.

(** [answer scanner url js w k]: the coordinator's answer to the k-th
    POST of a report loop entered in world [w]. *)
Definition answer (scanner : Scanner) (url js : string) (w : World) (k : nat)
  : PostResult :=
  http_Post X (posts w + k) (httpClient scanner) url "application/json" js.

(** What a run of the report loop may change: it adds report events,
    [attempts] of them POSTs, and leaves the environment alone. *)
Record report_frame (w w' : World) (attempts : nat) : Prop := {
  frame_trace : exists evs,
      trace w' = trace w ++ evs
      /\ Forall (fun e => is_report_event e = true) evs
      /\ count is_post evs = attempts;
  frame_env : env w' = env w
}.

(** *** The process environment *)

(** The values of a process environment are C strings: none holds a
    NUL byte. *)
Definition env_wf (e : gmap string string) : Prop :=
  forall key value, e !! key = Some value -> has_byte NUL value = false.

Definition is_lookup (e : Event) : bool :=
  match e with EvLookupEnv _ => true | _ => false end.

(** *** The events of a request and of a provisioning attempt *)

Definition request_event (scanner : Scanner) (e : Event) : Prop :=
  match e with
  | EvPost client url contentType body =>
      client = httpClient scanner
      /\ url = buildURL scanner (NextImagePath X)
      /\ contentType = EmptyString /\ body = EmptyString
  | EvLog _ _ _ | EvScannerError _ | EvHTTPStats _ _ | EvBodyClose _ => True
  | _ => False
  end.

Definition provision_event (scanner : Scanner) (hubURL : string) (e : Event)
  : Prop :=
  match e with
  | EvDownload url user password port timeout =>
      url = hubURL
      /\ user = Hub_User (Hub (config scanner))
      /\ password = hubPassword scanner
      /\ port = Hub_Port (Hub (config scanner))
      /\ timeout = wrap64 (Hub_ClientTimeoutSeconds (Hub (config scanner))
                           * time_Second)
  | EvNewHubScanClient _ _ _ _ | EvLog _ _ _ => True
  | _ => False
  end.

(** The events of sending [report]: every POST goes to the
    finished-scan URL with a JSON content type and the serialized report
    as body; the rest is bookkeeping. *)
Definition bookkeeping (e : Event) : Prop :=
  match e with
  | EvLog _ _ _ | EvScannerError _ | EvHTTPStats _ _ | EvBodyClose _ => True
  | _ => False
  end.

Definition report_post (scanner : Scanner) (report : FinishedScanClientJob)
    (e : Event) : Prop :=
  match e with
  | EvPost client url contentType body =>
      client = httpClient scanner
      /\ url = buildURL scanner (FinishedScanPath X)
      /\ contentType = "application/json"
      /\ json_Marshal X report = Ok body
  | _ => bookkeeping e
  end.

(** An event that is neither a scan nor the POST of a report (the
    only POST with a JSON content type). *)
Definition no_scan_no_report (e : Event) : Prop :=
  is_scan e = false
  /\ forall client url body, e <> EvPost client url "application/json" body.

(** An event of a scanner that works with the cached executor
    [client]: no download, no executor construction, and scans by
    [client] only. *)
Definition reuses (client : ScanClient) (e : Event) : Prop :=
  is_download e = false /\ is_build e = false
  /\ forall c job, e = EvScan c job -> c = client.

(** *** Frames for whole cycles *)

(** [appends P w w']: [w'] is [w] with more events, all satisfying [P]. *)
Definition appends (P : Event -> Prop) (w w' : World) : Prop :=
  exists evs, trace w' = trace w ++ evs /\ Forall P evs.

(** [emits P R m]: from any world, [m] only appends events satisfying
    [P], leaves the process environment alone, and what it returns, if
    it returns, satisfies [R]. *)
Definition emits {A} (P : Event -> Prop) (R : A -> Prop)
    (m : World -> option A * World) : Prop :=
  forall w,
    appends P w (m w).2
    /\ env (m w).2 = env w
    /\ match (m w).1 with
       | Some a => R a
       | None => True
       end.

(** The fields of the scanner a cycle may not touch, and the one it may
    set once: [scanClient] goes from nil to an executor and then stays. *)
Record scanner_kept (s s' : Scanner) : Prop := {
  kept_httpClient : httpClient s' = httpClient s;
  kept_perceptorHost : perceptorHost s' = perceptorHost s;
  kept_perceptorPort : perceptorPort s' = perceptorPort s;
  kept_config : config s' = config s;
  kept_stop : stop s' = stop s;
  kept_hubPassword : hubPassword s' = hubPassword s;
  kept_scanClient : scanClient s = None \/ scanClient s' = scanClient s
}.

(** What the events of the polling loop of scanner [s] look like: the
    HTTP client, stop channel and captured password are the scanner's;
    the scan tool is downloaded and the executor built only while none
    is cached; a cached executor is the one that scans; the process
    environment is never read or written. *)
Definition loop_event (s : Scanner) (e : Event) : Prop :=
  match e with
  | EvLog _ _ _ | EvScannerError _ | EvHTTPStats _ _ | EvBodyClose _ => True
  | EvPost client _ _ _ => client = httpClient s
  | EvDownload _ _ password _ _ =>
      password = hubPassword s /\ scanClient s = None
  | EvNewHubScanClient _ _ _ _ => scanClient s = None
  | EvScan client _ => scanClient s = None \/ scanClient s = Some client
  | EvSelect ch pause _ => ch = stop s /\ pause = requestScanJobPause
  | EvLookupEnv _ | EvSetenv _ _ => False
  end.

(** The events of one cycle: those of the loop, without the select. *)
Definition cycle_event (s : Scanner) (e : Event) : Prop :=
  loop_event s e /\ is_select e = false.

(** [env_blind m]: [m] neither reads nor writes the process
    environment: run from a world with another environment, it does the
    same and leaves that environment as it found it. *)
Definition env_blind {A} (m : World -> option A * World) : Prop :=
  forall e w, m (set_env e w) = ((m w).1, set_env e (m w).2).

(** *** One job *)

(** The scan-job descriptor built from a received ImageSpec. *)
Definition job_of (image : ImageSpec) : ScanJob :=
  NewScanJob X (Repository image) (Sha image) (HubURL image)
    (HubProjectName image) (HubProjectVersionName image) (HubScanName image).

(** What the executor answers to the scan issued from world [w]. *)
Definition scanned (client : ScanClient) (image : ImageSpec) (w : World)
  : option error :=
  ScanClient_Scan X (scans w) client (job_of image).

(** The report built after that scan. *)
Definition report_of (client : ScanClient) (image : ImageSpec) (w : World)
  : FinishedScanClientJob :=
  {| Finished_Err := match scanned client image w with
                     | Some err => err
                     | None => EmptyString
                     end;
     Finished_ImageSpec := image |}.

(** The log line that shows the report about to be sent. *)
Definition about_to_finish (report : FinishedScanClientJob) : Event :=
  EvLog Info "about to finish job, going to send over %+v" [AFinished report].

(** The scanner once [scanner.scanClient] has been assigned. *)
Definition with_scanClient (client : ScanClient) (scanner : Scanner) : Scanner :=
  {| scanClient := Some client;
     httpClient := httpClient scanner;
     perceptorHost := perceptorHost scanner;
     perceptorPort := perceptorPort scanner;
     config := config scanner;
     stop := stop scanner;
     hubPassword := hubPassword scanner |}.

(** The same collaborators with another [select] or another JSON
    decoder. *)
Definition with_select (sel : nat -> Chan -> Z -> Wake) : Externals :=
  {| NextImagePath := NextImagePath X;
     FinishedScanPath := FinishedScanPath X;
     json_Unmarshal := json_Unmarshal X;
     json_Marshal := json_Marshal X;
     http_Post := http_Post X;
     downloadScanClient := downloadScanClient X;
     ImageFacade_GetHost := ImageFacade_GetHost X;
     NewImageFacadePuller := NewImageFacadePuller X;
     NewHubScanClient := NewHubScanClient X;
     NewScanJob := NewScanJob X;
     ScanClient_Scan := ScanClient_Scan X;
     select_stop_or_timer := sel |}.

Definition with_json_Unmarshal (decode : string -> result NextImage)
  : Externals :=
  {| NextImagePath := NextImagePath X;
     FinishedScanPath := FinishedScanPath X;
     json_Unmarshal := decode;
     json_Marshal := json_Marshal X;
     http_Post := http_Post X;
     downloadScanClient := downloadScanClient X;
     ImageFacade_GetHost := ImageFacade_GetHost X;
     NewImageFacadePuller := NewImageFacadePuller X;
     NewHubScanClient := NewHubScanClient X;
     NewScanJob := NewScanJob X;
     ScanClient_Scan := ScanClient_Scan X;
     select_stop_or_timer := select_stop_or_timer X |}.

End Observations.

(** ** Accounting of events *)

Section Accounting.

Context {ScanClientInfo ImagePuller ScanClient ScanJob : Type}.

Abbreviation Event := (@Event ScanClientInfo ImagePuller ScanClient ScanJob).

(** [resp.Body.Close()] *)
Definition is_close (e : Event) : bool :=
  match e with EvBodyClose _ => true | _ => false end.

(** [recordHTTPStats] *)
Definition is_stats (e : Event) : bool :=
  match e with EvHTTPStats _ _ => true | _ => false end.

(** [recordScannerError] *)
Definition is_error_metric (e : Event) : bool :=
  match e with EvScannerError _ => true | _ => false end.

(** The POST that asks for work: the one sent without content type. *)
Definition is_request (e : Event) : bool :=
  match e with
  | EvPost _ _ contentType _ => String.eqb contentType EmptyString
  | _ => false
  end.

(** A select that the timer won. *)
Definition is_tick (e : Event) : bool :=
  match e with EvSelect _ _ TimerFired => true | _ => false end.

End Accounting.

(** ** A mock coordinator

    Concrete collaborators driven by scripts: the answers to the
    successive POSTs, downloads, executor constructions, scans and
    selects.  Used to run the program on concrete inputs. *)

Module Mock.

Record Script : Type := {
  post_answers : list PostResult;
  download_answers : list (result string);
  build_answers : list (result string);
  scan_answers : list (option error);
  wakes : list Wake;
  decodes : list (string * result NextImage);
  encodes : bool
}.

Definition decode (table : list (string * result NextImage)) (body : string)
  : result NextImage :=
  match find (fun entry => String.eqb (fst entry) body) table with
  | Some entry => snd entry
  | None => Err "invalid character"
  end.

Definition encode (ok : bool) (job : FinishedScanClientJob) : result string :=
  if ok
  then Ok ("{Err:" +:+ Finished_Err job +:+ ",Sha:"
           +:+ Sha (Finished_ImageSpec job) +:+ "}")
  else Err "json: unsupported value".

Definition externals (sc : Script)
  : @Externals string (string * Z) string (list string) :=
  {| NextImagePath := "nextimage";
     FinishedScanPath := "finishedscan";
     json_Unmarshal := decode (decodes sc);
     json_Marshal := encode (encodes sc);
     http_Post := fun n _ _ _ _ =>
       nth n (post_answers sc) (PostErr "connection refused");
     downloadScanClient := fun n _ _ _ _ _ =>
       nth n (download_answers sc) (Err "download failed");
     ImageFacade_GetHost := ImageFacade_Host;
     NewImageFacadePuller := fun host port => (host, port);
     NewHubScanClient := fun n _ _ _ _ =>
       nth n (build_answers sc) (Err "no scan client");
     NewScanJob := fun repository sha hubURL project version scan =>
       [repository; sha; hubURL; project; version; scan];
     ScanClient_Scan := fun n _ _ => nth n (scan_answers sc) None;
     select_stop_or_timer := fun n _ _ => nth n (wakes sc) StopFired |}.

Definition quiet : Script :=
  {| post_answers := []; download_answers := []; build_answers := [];
     scan_answers := []; wakes := []; decodes := []; encodes := true |}.

Definition cfg : Config :=
  {| Hub := {| Hub_User := "sysadmin";
               Hub_PasswordEnvVar := "PCP_HUBUSERPASSWORD";
               Hub_Port := 443;
               Hub_ClientTimeoutSeconds := 120 |};
     Perceptor := {| Perceptor_Host := "perceptor"; Perceptor_Port := 3001 |};
     ImageFacade := {| ImageFacade_Host := "facade"; ImageFacade_Port := 3004 |} |}.

Definition image : ImageSpec :=
  {| Repository := "r"; Sha := "s1"; HubURL := "http://hub";
     HubProjectName := "p"; HubProjectVersionName := "v1";
     HubScanName := "n1" |}.

Definition boot (e : gmap string string)
  : @World string (string * Z) string (list string) :=
  {| env := e; trace := [] |}.

Definition scanner (client : option string) : @Scanner string :=
  {| scanClient := client;
     httpClient := {| Timeout := 5 * time_Second |};
     perceptorHost := "perceptor";
     perceptorPort := 3001;
     config := cfg;
     stop := 0%nat;
     hubPassword := "secret" |}.

(** Scripts of a few ticks. *)

Definition decoding : list (string * result NextImage) :=
  [("job1", Ok {| NextImage_ImageSpec := Some image |});
   ("idle", Ok {| NextImage_ImageSpec := None |})].

(** One job handed out, provisioned, scanned with outcome [scan] and
    reported at the first attempt; then the stop channel fires. *)
Definition one_job (scan : option error) : Script :=
  {| post_answers := [PostResp 200 (Ok "job1"); PostResp 200 (Ok "accepted")];
     download_answers := [Ok "tool"];
     build_answers := [Ok "client"];
     scan_answers := [scan];
     wakes := [TimerFired; StopFired];
     decodes := decoding;
     encodes := true |}.

(** One job handed out while the scan tool cannot be downloaded. *)
Definition hub_down : Script :=
  {| post_answers := [PostResp 200 (Ok "job1")];
     download_answers := [Err "hub unreachable"];
     build_answers := [];
     scan_answers := [];
     wakes := [TimerFired; StopFired];
     decodes := decoding;
     encodes := true |}.

(** The coordinator answers the request for work with [reply]. *)
Definition replying (reply : PostResult) : Script :=
  {| post_answers := [reply];
     download_answers := [];
     build_answers := [];
     scan_answers := [];
     wakes := [TimerFired; StopFired];
     decodes := decoding;
     encodes := true |}.

(** The coordinator refuses the report twice, then accepts it. *)
Definition refusing_twice : Script :=
  {| post_answers := [PostResp 500 (Ok "busy"); PostResp 500 (Ok "busy");
                      PostResp 200 (Ok "accepted")];
     download_answers := [];
     build_answers := [];
     scan_answers := [];
     wakes := [];
     decodes := [];
     encodes := true |}.

End Mock.

(** ** Reasoning about runs *)

Section RunBasics.

Context {ScanClientInfo ImagePuller ScanClient ScanJob : Type}.

Abbreviation Event := (@Event ScanClientInfo ImagePuller ScanClient ScanJob).
Abbreviation World := (@World ScanClientInfo ImagePuller ScanClient ScanJob).
Abbreviation Externals := (@Externals ScanClientInfo ImagePuller ScanClient ScanJob).
Abbreviation Scanner := (@Scanner ScanClient).
Abbreviation M := (@M ScanClientInfo ImagePuller ScanClient ScanJob).


Lemma add_event_record (e : Event) (w : World) :
  add_event e w = record_events [e] w.
Proof. reflexivity. Qed.

Lemma record_events_app (a b : list Event) (w : World) :
  record_events b (record_events a w) = record_events (a ++ b) w.
Proof. unfold record_events; simpl. by rewrite app_assoc. Qed.

Lemma record_events_nil (w : World) : record_events [] w = w.
Proof. destruct w; unfold record_events; simpl. by rewrite app_nil_r. Qed.

Lemma count_snoc f (evs : list Event) (e : Event) :
  count f (evs ++ [e]) = if f e then S (count f evs) else count f evs.
Proof.
  unfold count. rewrite List.filter_app, length_app. simpl.
  destruct (f e); simpl; lia.
Qed.

Lemma count_cons f (e : Event) (evs : list Event) :
  count f (e :: evs) = if f e then S (count f evs) else count f evs.
Proof. unfold count. simpl. by destruct (f e). Qed.

Lemma posts_add_event e (w : World) :
  posts (add_event e w) = if is_post e then S (posts w) else posts w.
Proof. apply count_snoc. Qed.

Lemma downloads_add_event e (w : World) :
  downloads (add_event e w)
  = if is_download e then S (downloads w) else downloads w.
Proof. apply count_snoc. Qed.

Lemma builds_add_event e (w : World) :
  builds (add_event e w) = if is_build e then S (builds w) else builds w.
Proof. apply count_snoc. Qed.

Lemma scans_add_event e (w : World) :
  scans (add_event e w) = if is_scan e then S (scans w) else scans w.
Proof. apply count_snoc. Qed.

Lemma selects_add_event e (w : World) :
  selects (add_event e w) = if is_select e then S (selects w) else selects w.
Proof. apply count_snoc. Qed.

Lemma bind_run {A B} (m : M A) (k : A -> M B) (w : World) :
  (m ≫= k) w = match m w with
               | (Some a, w') => k a w'
               | (None, w') => (None, w')
               end.
Proof. reflexivity. Qed.

End RunBasics.

(** Symbolic execution of straight-line monadic code: unfold one
    primitive at a time and gather the events of the trace. *)
Ltac run_unfold :=
  repeat first
    [ rewrite bind_run
    | progress unfold httpClient_Post, call_downloadScanClient,
        call_NewHubScanClient, call_Scan, select, recordScannerError,
        recordHTTPStats, resp_Body_Close, log, emit, out_of_fuel
    | progress unfold mret, M_ret, ret
    | progress cbn beta iota zeta
    | progress change (200 =? 200)%Z with true
    | progress cbn [negb] ].

Ltac gather_events :=
  rewrite ?add_event_record, ?record_events_app.

(** Bring the call counters of a world built by [add_event] back to
    those of the world it started from. *)
Ltac count_calls :=
  rewrite ?posts_add_event, ?downloads_add_event, ?builds_add_event,
    ?scans_add_event, ?selects_add_event;
  cbn [is_post is_download is_build is_scan is_select].

Section Runs.

Context {ScanClientInfo ImagePuller ScanClient ScanJob : Type}.

Abbreviation Event := (@Event ScanClientInfo ImagePuller ScanClient ScanJob).
Abbreviation World := (@World ScanClientInfo ImagePuller ScanClient ScanJob).
Abbreviation Externals := (@Externals ScanClientInfo ImagePuller ScanClient ScanJob).
Abbreviation Scanner := (@Scanner ScanClient).
Abbreviation M := (@M ScanClientInfo ImagePuller ScanClient ScanJob).

Context (X : Externals).

(** Closing the pending response bodies only adds the close events. *)
Lemma mapM_close_run (l : list nat) (w : World) :
  mapM resp_Body_Close l w
  = (Some (map (fun _ => tt) l), record_events (map EvBodyClose l) w).
Proof.
  revert w. induction l as [|n l IH]; intros w.
  - simpl. by rewrite record_events_nil.
  - cbn [mapM map]. rewrite bind_run. unfold resp_Body_Close at 1, emit.
    rewrite bind_run, IH. unfold mret, M_ret, ret.
    by rewrite add_event_record, record_events_app.
Qed.

Lemma finishScan_loop_step fuel scanner url js deferred (w : World) :
  finishScan_loop X (S fuel) scanner url js deferred w
  = let r := http_Post X (posts w) (httpClient scanner) url "application/json" js in
    let w1 := record_events (report_attempt X scanner url js r) w in
    match r with
    | PostErr _ => finishScan_loop X fuel scanner url js deferred w1
    | PostResp status _ =>
        if negb (status =? 200)%Z
        then finishScan_loop X fuel scanner url js (posts w :: deferred) w1
        else (Some None,
              record_events (map EvBodyClose (posts w :: deferred)) w1)
    end.
Proof.
  cbn [finishScan_loop]. rewrite bind_run. unfold httpClient_Post, report_attempt.
  cbn beta iota zeta.
  destruct (http_Post X (posts w) (httpClient scanner) url "application/json" js)
    as [err|status body].
  - run_unfold. by gather_events.
  - rewrite bind_run. unfold recordHTTPStats, emit.
    destruct (negb (status =? 200)%Z).
    + run_unfold. by gather_events.
    + rewrite !bind_run. unfold log, emit.
      rewrite bind_run, mapM_close_run. run_unfold. by gather_events.
Qed.

Lemma count_app f (a b : list Event) :
  count f (a ++ b) = (count f a + count f b)%nat.
Proof. unfold count. by rewrite List.filter_app, length_app. Qed.

Lemma posts_record_events (evs : list Event) (w : World) :
  posts (record_events evs w) = (posts w + count is_post evs)%nat.
Proof. apply count_app. Qed.

Lemma report_attempt_shape scanner url js r :
  Forall (fun e => is_report_event e = true) (report_attempt X scanner url js r)
  /\ count is_post (report_attempt X scanner url js r) = 1%nat.
Proof.
  unfold report_attempt. destruct r as [err|status body].
  - split; [by repeat constructor | reflexivity].
  - destruct (negb (status =? 200)%Z); (split; [by repeat constructor | reflexivity]).
Qed.

Lemma close_events_shape (l : list nat) :
  Forall (fun e : Event => is_report_event e = true) (map EvBodyClose l)
  /\ count is_post (map EvBodyClose l : list Event) = 0%nat.
Proof.
  induction l as [|n l [IH1 IH2]]; [by split|].
  split; [by constructor|]. exact IH2.
Qed.

Lemma report_frame_refl (w : World) : report_frame w w 0.
Proof.
  split; [|done]. exists []. by rewrite app_nil_r.
Qed.

Lemma report_frame_trans (w1 w2 w3 : World) (a b : nat) :
  report_frame w1 w2 a -> report_frame w2 w3 b ->
  report_frame w1 w3 (a + b).
Proof.
  intros [(e1 & T1 & F1 & C1) E1] [(e2 & T2 & F2 & C2) E2].
  split; [|congruence].
  exists (e1 ++ e2). split; [by rewrite T2, T1, app_assoc|].
  split; [by apply Forall_app|]. rewrite count_app. congruence.
Qed.

Lemma report_frame_posts (w w' : World) (attempts : nat) :
  report_frame w w' attempts -> posts w' = (posts w + attempts)%nat.
Proof.
  intros [(evs & T & _ & C) _]. unfold posts. by rewrite T, count_app, C.
Qed.

Lemma report_frame_attempt scanner url js r (w : World) :
  report_frame w
    (record_events (report_attempt X scanner url js r) w) 1.
Proof.
  destruct (report_attempt_shape scanner url js r) as [F C].
  split; [|done]. by exists (report_attempt X scanner url js r).
Qed.

Lemma report_frame_close (l : list nat) (w : World) :
  report_frame w (record_events (map EvBodyClose l) w) 0.
Proof.
  destruct (close_events_shape l) as [F C].
  split; [|done]. by exists (map EvBodyClose l).
Qed.

(** The report loop, whatever its fuel: it has returned exactly when a
    200 has been seen, and then with a nil error. *)
Lemma finishScan_loop_spec (fuel : nat) :
  forall scanner url js deferred (w : World),
    let '(res, w') := finishScan_loop X fuel scanner url js deferred w in
    match res with
    | Some err =>
        err = None
        /\ exists k, (k < fuel)%nat
             /\ is200 (answer X scanner url js w k) = true
             /\ (forall j, (j < k)%nat -> is200 (answer X scanner url js w j) = false)
             /\ report_frame w w' (S k)
    | None =>
        (forall j, (j < fuel)%nat -> is200 (answer X scanner url js w j) = false)
        /\ report_frame w w' fuel
    end.
Proof.
  induction fuel as [|fuel IH]; intros scanner url js deferred w.
  - simpl. split; [lia | apply report_frame_refl].
  - rewrite finishScan_loop_step. cbn zeta.
    pose proof (report_frame_attempt scanner url js
                  (http_Post X (posts w) (httpClient scanner) url
                     "application/json" js) w) as F1.
    set (w1 := record_events _ w) in *.
    assert (Hshift : forall k, answer X scanner url js w1 k
                               = answer X scanner url js w (S k)).
    { intros k. unfold answer. rewrite (report_frame_posts _ _ _ F1).
      by rewrite <- Nat.add_assoc. }
    assert (H0 : answer X scanner url js w 0
                 = http_Post X (posts w) (httpClient scanner) url
                     "application/json" js).
    { unfold answer. by rewrite Nat.add_0_r. }
    assert (Hrec : forall deferred',
      is200 (answer X scanner url js w 0) = false ->
      let '(res, w') := finishScan_loop X fuel scanner url js deferred' w1 in
      match res with
      | Some err =>
          err = None
          /\ exists k, (k < S fuel)%nat
               /\ is200 (answer X scanner url js w k) = true
               /\ (forall j, (j < k)%nat -> is200 (answer X scanner url js w j) = false)
               /\ report_frame w w' (S k)
      | None =>
          (forall j, (j < S fuel)%nat -> is200 (answer X scanner url js w j) = false)
          /\ report_frame w w' (S fuel)
      end).
    { intros deferred' Hno. specialize (IH scanner url js deferred' w1).
      destruct (finishScan_loop X fuel scanner url js deferred' w1) as [[err|] w'].
      - destruct IH as (-> & k & Hk & Hyes & Hbefore & Hframe).
        split; [done|]. exists (S k). split; [lia|].
        split; [by rewrite <- Hshift|]. split.
        + intros [|j] Hj; [done|]. rewrite <- Hshift. apply Hbefore. lia.
        + apply (report_frame_trans _ _ _ 1 (S k) F1 Hframe).
      - destruct IH as (Hall & Hframe). split.
        + intros [|j] Hj; [done|]. rewrite <- Hshift. apply Hall. lia.
        + apply (report_frame_trans _ _ _ 1 fuel F1 Hframe). }
    rewrite H0 in Hrec.
    destruct (http_Post X (posts w) (httpClient scanner) url
                "application/json" js) as [err|status body] eqn:Hans.
    + apply Hrec. reflexivity.
    + destruct (status =? 200)%Z eqn:Hst; cbn [negb].
      * split; [done|]. exists 0%nat. split; [lia|].
        split; [by rewrite H0; simpl|]. split; [intros j Hj; lia|].
        apply (report_frame_trans _ _ _ 1 0 F1), report_frame_close.
      * apply Hrec. by simpl.
Qed.

(** *** Rules for [emits] *)

Implicit Types P Q : Event -> Prop.

Lemma appends_refl P (w : World) : appends P w w.
Proof. exists []. by rewrite app_nil_r. Qed.

Lemma appends_trans P (w1 w2 w3 : World) :
  appends P w1 w2 -> appends P w2 w3 -> appends P w1 w3.
Proof.
  intros (e1 & T1 & F1) (e2 & T2 & F2). exists (e1 ++ e2).
  split; [by rewrite T2, T1, app_assoc | by apply Forall_app].
Qed.

Lemma appends_weaken (P Q : Event -> Prop) (w w' : World) :
  (forall e, P e -> Q e) -> appends P w w' -> appends Q w w'.
Proof.
  intros HPQ (evs & T & F). exists evs. split; [done|].
  eapply Forall_impl; eauto.
Qed.

Lemma emits_ret {A} P (R : A -> Prop) (a : A) : R a -> emits P R (mret a : M A).
Proof. intros Ha w. split; [apply appends_refl | by split]. Qed.

Lemma emits_out_of_fuel {A} P (R : A -> Prop) : emits P R (out_of_fuel : M A).
Proof. intros w. split; [apply appends_refl | by split]. Qed.

Lemma emits_bind {A B} P (R : A -> Prop) (R' : B -> Prop)
    (m : M A) (k : A -> M B) :
  emits P R m -> (forall a, R a -> emits P R' (k a)) -> emits P R' (m ≫= k).
Proof.
  intros Hm Hk w. rewrite bind_run. specialize (Hm w).
  destruct (m w) as [[a|] w1]; simpl in Hm.
  - destruct Hm as (T1 & E1 & Ha). specialize (Hk a Ha w1).
    destruct Hk as (T2 & E2 & Hb).
    split; [by eapply appends_trans | split; [congruence | done]].
  - destruct Hm as (T1 & E1 & _). by repeat split.
Qed.

Lemma emits_weaken {A} (P Q : Event -> Prop) (R R' : A -> Prop) (m : M A) :
  (forall e, P e -> Q e) -> (forall a, R a -> R' a) ->
  emits P R m -> emits Q R' m.
Proof.
  intros HPQ HR Hm w. destruct (Hm w) as (T & E & Ha).
  split; [by eapply appends_weaken | split; [done|]].
  destruct ((m w).1); auto.
Qed.

Lemma appends_event (P : Event -> Prop) e (w : World) :
  P e -> appends P w (add_event e w).
Proof. intros He. exists [e]. by repeat constructor. Qed.

Lemma emits_emit P (e : Event) : P e -> emits P (fun _ => True) (emit e).
Proof. intros He w. split; [by apply appends_event | by split]. Qed.

Lemma emits_log P l format args :
  P (EvLog l format args) -> emits P (fun _ => True) (log l format args).
Proof. apply emits_emit. Qed.

Lemma emits_post P client url contentType body :
  P (EvPost client url contentType body) ->
  emits P (fun _ => True) (httpClient_Post X client url contentType body).
Proof. intros He w. split; [by apply appends_event | by split]. Qed.

Lemma emits_download P hubURL user password port timeout :
  P (EvDownload hubURL user password port timeout) ->
  emits P (fun _ => True)
    (call_downloadScanClient X hubURL user password port timeout).
Proof. intros He w. split; [by apply appends_event | by split]. Qed.

Lemma emits_build P user port info puller :
  P (EvNewHubScanClient user port info puller) ->
  emits P (fun _ => True) (call_NewHubScanClient X user port info puller).
Proof. intros He w. split; [by apply appends_event | by split]. Qed.

Lemma emits_scan P client job :
  P (EvScan client job) -> emits P (fun _ => True) (call_Scan X client job).
Proof. intros He w. split; [by apply appends_event | by split]. Qed.

Lemma emits_select P ch pause :
  (forall wake, P (EvSelect ch pause wake)) ->
  emits P (fun _ => True) (select X ch pause).
Proof. intros He w. split; [by apply appends_event | by split]. Qed.

Lemma emits_close_all P (l : list nat) :
  (forall n, P (EvBodyClose n)) ->
  emits P (fun _ => True) (mapM resp_Body_Close l).
Proof.
  intros He w. rewrite mapM_close_run. simpl. split; [|by split].
  exists (map EvBodyClose l). split; [done|].
  apply Forall_forall. intros e Hin. apply list_elem_of_In, in_map_iff in Hin.
  destruct Hin as (n & <- & _). apply He.
Qed.

(** Walk through monadic code, one rule per construct. *)
Ltac emits_walk :=
  repeat match goal with
  | |- emits _ _ (mret _) => apply emits_ret
  | |- emits _ _ out_of_fuel => apply emits_out_of_fuel
  | |- emits _ _ (log _ _ _) => apply emits_log
  | |- emits _ _ (recordScannerError _) => apply emits_emit
  | |- emits _ _ (recordHTTPStats _ _) => apply emits_emit
  | |- emits _ _ (resp_Body_Close _) => apply emits_emit
  | |- emits _ _ (httpClient_Post _ _ _ _ _) => apply emits_post
  | |- emits _ _ (call_downloadScanClient _ _ _ _ _ _) => apply emits_download
  | |- emits _ _ (call_NewHubScanClient _ _ _ _ _) => apply emits_build
  | |- emits _ _ (call_Scan _ _ _) => apply emits_scan
  | |- emits _ _ (mapM resp_Body_Close _) => apply emits_close_all
  | |- emits _ _ (_ ≫= _) =>
      apply (emits_bind _ (fun _ => True)); [|intros ? _]
  | |- emits _ _ (match ?x with _ => _ end) => destruct x
  end.

(** *** The events of each method *)

Lemma requestScanJob_emits (s0 scanner : Scanner) :
  httpClient scanner = httpClient s0 ->
  emits (cycle_event s0) (fun _ => True) (requestScanJob X scanner).
Proof.
  intros Hc. unfold requestScanJob. cbn zeta.
  emits_walk; try done; by (split; [simpl|]).
Qed.

Lemma downloadScanner_emits (s0 scanner : Scanner) hubURL :
  hubPassword scanner = hubPassword s0 -> scanClient s0 = None ->
  emits (cycle_event s0) (fun _ => True) (downloadScanner X scanner hubURL).
Proof.
  intros Hpw Hnil. unfold downloadScanner. cbn zeta.
  emits_walk; try done; by (split; [simpl|]).
Qed.

Lemma finishScan_loop_emits (s0 scanner : Scanner) fuel url js :
  httpClient scanner = httpClient s0 ->
  forall deferred,
    emits (cycle_event s0) (fun _ => True)
      (finishScan_loop X fuel scanner url js deferred).
Proof.
  intros Hc. induction fuel as [|fuel IH]; intros deferred;
    cbn [finishScan_loop]; emits_walk; try done;
    try apply IH; by (split; [simpl|]).
Qed.

Lemma finishScan_emits (s0 scanner : Scanner) fuel results :
  httpClient scanner = httpClient s0 ->
  emits (cycle_event s0) (fun _ => True) (finishScan X fuel scanner results).
Proof.
  intros Hc. unfold finishScan. cbn zeta.
  emits_walk; try done; try (by apply finishScan_loop_emits);
    by (split; [simpl|]).
Qed.

Lemma scanner_kept_refl (s : Scanner) : scanner_kept s s.
Proof. split; auto. Qed.

Lemma scanner_kept_trans (s1 s2 s3 : Scanner) :
  scanner_kept s1 s2 -> scanner_kept s2 s3 -> scanner_kept s1 s3.
Proof.
  intros [A1 B1 C1 D1 E1 F1 G1] [A2 B2 C2 D2 E2 F2 G2].
  split; try congruence.
  destruct G1 as [G1|G1]; [by left|]. destruct G2 as [G2|G2].
  - left. congruence.
  - right. congruence.
Qed.

(** Events of a later scanner state are events of the earlier one. *)
Lemma loop_event_kept (s s' : Scanner) (e : Event) :
  scanner_kept s s' -> loop_event s' e -> loop_event s e.
Proof.
  intros [A B C D E F G] He. destruct e; simpl in *; try done.
  - congruence.
  - destruct He as [-> Hn]. split; [done|].
    destruct G as [G|G]; congruence.
  - destruct G as [G|G]; congruence.
  - destruct G as [G|G]; [by left|]. by rewrite <- G.
  - destruct He as [-> ->]. by split.
Qed.

Lemma requestAndRunScanJob_emits (fuel : nat) (scanner : Scanner) :
  emits (cycle_event scanner) (fun r => scanner_kept scanner r.1)
    (requestAndRunScanJob X fuel scanner).
Proof.
  unfold requestAndRunScanJob.
  apply (emits_bind _ (fun _ => True)); [by apply emits_log|intros _ _].
  apply (emits_bind _ (fun _ => True));
    [by apply requestScanJob_emits|intros [[image|]|err] _].
  - apply (emits_bind _ (fun _ => True)); [by apply emits_log|intros _ _].
    apply (emits_bind _ (fun r => match r with
                                  | Ok client =>
                                      scanClient scanner = None
                                      \/ scanClient scanner = Some client
                                  | Err _ => True
                                  end)).
    + destruct (scanClient scanner) as [client|] eqn:Hcached.
      * apply emits_ret. by right.
      * apply (emits_bind _ (fun _ => True));
          [apply downloadScanner_emits; by rewrite ?Hcached|].
        intros [client|err] _.
        -- apply emits_ret. by left.
        -- apply (emits_bind _ (fun _ => True)); [by apply emits_log|].
           intros _ _. by apply emits_ret.
    + intros [client|err] Hclient.
      * cbn zeta.
        apply (emits_bind _ (fun _ => True));
          [apply emits_scan; by split|intros scanned _].
        apply (emits_bind _ (fun _ => True)); [by apply emits_log|intros _ _].
        apply (emits_bind _ (fun _ => True));
          [by apply finishScan_emits|intros reported _].
        apply (emits_bind _ (fun _ => True)).
        { destruct reported; [by apply emits_log | by apply emits_ret]. }
        intros _ _. apply emits_ret. simpl. split; simpl; try done.
        destruct Hclient as [H|H]; [by left | right; by rewrite H].
      * apply emits_ret. apply scanner_kept_refl.
  - apply (emits_bind _ (fun _ => True)); [by apply emits_log|intros _ _].
    apply emits_ret. apply scanner_kept_refl.
  - apply (emits_bind _ (fun _ => True)); [by apply emits_log|intros _ _].
    apply emits_ret. apply scanner_kept_refl.
Qed.

Lemma pollLoop_emits (fuel : nat) :
  forall scanner : Scanner,
    emits (loop_event scanner) (scanner_kept scanner) (pollLoop X fuel scanner).
Proof.
  induction fuel as [|fuel IH]; intros scanner; cbn [pollLoop].
  - apply emits_out_of_fuel.
  - apply (emits_bind _ (fun _ => True)); [by apply emits_select|].
    intros [|] _.
    + apply emits_ret, scanner_kept_refl.
    + apply (emits_bind _ (fun r => scanner_kept scanner r.1)).
      * eapply emits_weaken; [| |apply requestAndRunScanJob_emits].
        -- by intros e [He _].
        -- done.
      * intros [scanner' err] Hkept. simpl in Hkept.
        apply (emits_bind _ (fun _ => True)).
        { destruct err; [by apply emits_log | by apply emits_ret]. }
        intros _ _. eapply emits_weaken; [| |apply IH].
        -- intros e. by apply loop_event_kept.
        -- intros s'. by apply scanner_kept_trans.
Qed.

(** *** The paths of [requestScanJob] *)

Section RequestPaths.

Variables (scanner : Scanner) (w : World).

Let url := buildURL scanner (NextImagePath X).
Let request : Event := EvPost (httpClient scanner) url EmptyString EmptyString.
Let reply := http_Post X (posts w) (httpClient scanner) url EmptyString EmptyString.

Lemma requestScanJob_transport_error err :
  reply = PostErr err ->
  requestScanJob X scanner w
  = (Some (Err err),
     record_events
       [request;
        EvScannerError "unable to POST get next image";
        EvLog Error "unable to POST to %s: %s" [AStr url; AStr err]] w).
Proof.
  subst reply request url. intros Hans. unfold requestScanJob.
  run_unfold. rewrite Hans. run_unfold. by gather_events.
Qed.

Lemma requestScanJob_bad_status status body :
  reply = PostResp status body -> status <> 200 ->
  let err := "http POST request to " +:+ url +:+ " failed with status code "
             +:+ fmt_d status in
  requestScanJob X scanner w
  = (Some (Err err),
     record_events
       [request; EvHTTPStats (NextImagePath X) status; EvLog Error err []] w).
Proof.
  subst reply request url. intros Hans Hst. unfold requestScanJob.
  run_unfold. rewrite Hans. run_unfold.
  apply Z.eqb_neq in Hst. rewrite Hst. run_unfold. by gather_events.
Qed.

Lemma requestScanJob_unreadable err :
  reply = PostResp 200 (Err err) ->
  requestScanJob X scanner w
  = (Some (Err err),
     record_events
       [request; EvHTTPStats (NextImagePath X) 200;
        EvScannerError "unable to read response body";
        EvLog Error "unable to read response body from %s: %s"
          [AStr url; AStr err];
        EvBodyClose (posts w)] w).
Proof.
  subst reply request url. intros Hans. unfold requestScanJob.
  run_unfold. rewrite Hans. run_unfold. by gather_events.
Qed.

Lemma requestScanJob_malformed body err :
  reply = PostResp 200 (Ok body) -> json_Unmarshal X body = Err err ->
  requestScanJob X scanner w
  = (Some (Err err),
     record_events
       [request; EvHTTPStats (NextImagePath X) 200;
        EvScannerError "unmarshaling JSON body failed";
        EvLog Error "unmarshaling JSON body bytes %s failed for URL %s: %s"
          [AStr body; AStr url; AStr err];
        EvBodyClose (posts w)] w).
Proof.
  subst reply request url. intros Hans Hjs. unfold requestScanJob.
  run_unfold. rewrite Hans. run_unfold. rewrite Hjs. run_unfold.
  by gather_events.
Qed.

Lemma requestScanJob_decoded body nextImage :
  reply = PostResp 200 (Ok body) -> json_Unmarshal X body = Ok nextImage ->
  requestScanJob X scanner w
  = (Some (Ok (NextImage_ImageSpec nextImage)),
     record_events
       [request; EvHTTPStats (NextImagePath X) 200;
        EvLog Debug "http POST request to %s succeeded, got image %s"
          [AStr url;
           AStr match NextImage_ImageSpec nextImage with
                | Some spec => Sha spec
                | None => "null"
                end];
        EvBodyClose (posts w)] w).
Proof.
  subst reply request url. intros Hans Hjs. unfold requestScanJob.
  run_unfold. rewrite Hans. run_unfold. rewrite Hjs. run_unfold.
  by gather_events.
Qed.

End RequestPaths.

(** *** The paths of [downloadScanner] *)

Section DownloadPaths.

Variables (scanner : Scanner) (hubURL : string) (w : World).

Let user := Hub_User (Hub (config scanner)).
Let port := Hub_Port (Hub (config scanner)).
Let timeout :=
  wrap64 (Hub_ClientTimeoutSeconds (Hub (config scanner)) * time_Second).
Let puller :=
  NewImageFacadePuller X
    (ImageFacade_GetHost X (ImageFacade (config scanner)))
    (ImageFacade_Port (ImageFacade (config scanner))).
Let download : Event :=
  EvDownload hubURL user (hubPassword scanner) port timeout.
Let downloaded :=
  downloadScanClient X (downloads w) hubURL user (hubPassword scanner) port
    timeout.
Let instantiating : Event :=
  EvLog Info "instantiating scanner with hub %s, user %s"
    [AStr hubURL; AStr user].

Lemma downloadScanner_download_failed err :
  downloaded = Err err ->
  downloadScanner X scanner hubURL w
  = (Some (Err err),
     record_events
       [download; EvLog Error "unable to download scan client: %s" [AStr err]]
       w).
Proof.
  subst downloaded download user port timeout. intros Hgot.
  unfold downloadScanner. run_unfold. rewrite Hgot. run_unfold.
  by gather_events.
Qed.

Lemma downloadScanner_build_failed info err :
  downloaded = Ok info ->
  NewHubScanClient X (builds w) user port info puller = Err err ->
  downloadScanner X scanner hubURL w
  = (Some (Err err),
     record_events
       [download; instantiating; EvNewHubScanClient user port info puller;
        EvLog Error "unable to instantiate hub scan client: %s" [AStr err]]
       w).
Proof.
  subst downloaded download instantiating puller user port timeout.
  intros Hgot Hmade. unfold downloadScanner. run_unfold. rewrite Hgot.
  run_unfold. count_calls. rewrite Hmade. run_unfold. by gather_events.
Qed.

Lemma downloadScanner_built info client :
  downloaded = Ok info ->
  NewHubScanClient X (builds w) user port info puller = Ok client ->
  downloadScanner X scanner hubURL w
  = (Some (Ok client),
     record_events
       [download; instantiating; EvNewHubScanClient user port info puller] w).
Proof.
  subst downloaded download instantiating puller user port timeout.
  intros Hgot Hmade. unfold downloadScanner. run_unfold. rewrite Hgot.
  run_unfold. count_calls. rewrite Hmade. run_unfold. by gather_events.
Qed.

End DownloadPaths.

(** Whatever the coordinator answers, a request returns, after one
    POST and nothing but request events. *)
Lemma requestScanJob_frame scanner (w : World) :
  exists res evs,
    requestScanJob X scanner w = (Some res, record_events evs w)
    /\ Forall (request_event X scanner) evs
    /\ count is_post evs = 1%nat.
Proof.
  destruct (http_Post X (posts w) (httpClient scanner)
              (buildURL scanner (NextImagePath X)) EmptyString EmptyString)
    as [err|status [body|err]] eqn:Hans.
  - eexists _, _. split; [by apply requestScanJob_transport_error|].
    split; [by repeat constructor | reflexivity].
  - destruct (Z.eq_dec status 200) as [->|Hst].
    + destruct (json_Unmarshal X body) as [next|err] eqn:Hjs.
      * eexists _, _. split; [by eapply requestScanJob_decoded|].
        split; [by repeat constructor | reflexivity].
      * eexists _, _. split; [by eapply requestScanJob_malformed|].
        split; [by repeat constructor | reflexivity].
    + eexists _, _. split; [by eapply requestScanJob_bad_status|].
      split; [by repeat constructor | reflexivity].
  - destruct (Z.eq_dec status 200) as [->|Hst].
    + eexists _, _. split; [by apply requestScanJob_unreadable|].
      split; [by repeat constructor | reflexivity].
    + eexists _, _. split; [by eapply requestScanJob_bad_status|].
      split; [by repeat constructor | reflexivity].
Qed.

(** Whatever the downloader and the factory answer, a provisioning
    attempt returns, after one download and nothing but provisioning
    events. *)
Lemma downloadScanner_frame scanner hubURL (w : World) :
  exists res evs,
    downloadScanner X scanner hubURL w = (Some res, record_events evs w)
    /\ Forall (provision_event scanner hubURL) evs
    /\ count is_download evs = 1%nat.
Proof.
  destruct (downloadScanClient X (downloads w) hubURL
              (Hub_User (Hub (config scanner))) (hubPassword scanner)
              (Hub_Port (Hub (config scanner)))
              (wrap64 (Hub_ClientTimeoutSeconds (Hub (config scanner))
                       * time_Second))) as [info|err] eqn:Hgot.
  - destruct (NewHubScanClient X (builds w)
                (Hub_User (Hub (config scanner)))
                (Hub_Port (Hub (config scanner))) info
                (NewImageFacadePuller X
                   (ImageFacade_GetHost X (ImageFacade (config scanner)))
                   (ImageFacade_Port (ImageFacade (config scanner)))))
      as [client|err] eqn:Hmade.
    + eexists _, _. split; [by eapply downloadScanner_built|].
      split; [by repeat constructor | reflexivity].
    + eexists _, _. split; [by eapply downloadScanner_build_failed|].
      split; [by repeat constructor | reflexivity].
  - eexists _, _. split; [by eapply downloadScanner_download_failed|].
    split; [by repeat constructor | reflexivity].
Qed.

(** Events that are not of kind [f] do not count for [f]. *)
Lemma count_none f (P : Event -> Prop) (evs : list Event) :
  (forall e, P e -> f e = false) -> Forall P evs -> count f evs = 0%nat.
Proof.
  intros Hf Hall. induction Hall as [|e evs He _ IH]; [done|].
  unfold count in *. simpl. by rewrite (Hf e He).
Qed.

(** *** The paths of [requestAndRunScanJob] *)

Section CyclePaths.

Variables (fuel : nat) (scanner : Scanner) (w : World).

Let requesting : World :=
  add_event (EvLog Debug "requesting scan job" []) w.

Lemma cycle_request_failed err (w1 : World) :
  requestScanJob X scanner requesting = (Some (Err err), w1) ->
  requestAndRunScanJob X fuel scanner w
  = (Some (scanner, Some err),
     add_event (EvLog Error "unable to request scan job: %s" [AStr err]) w1).
Proof.
  subst requesting. intros Hreq. unfold requestAndRunScanJob.
  run_unfold. rewrite Hreq. by run_unfold.
Qed.

Lemma cycle_no_work (w1 : World) :
  requestScanJob X scanner requesting = (Some (Ok None), w1) ->
  requestAndRunScanJob X fuel scanner w
  = (Some (scanner, None),
     add_event (EvLog Debug "requested scan job, got nil" []) w1).
Proof.
  subst requesting. intros Hreq. unfold requestAndRunScanJob.
  run_unfold. rewrite Hreq. by run_unfold.
Qed.

Lemma cycle_provision_failed image err (w1 w2 : World) :
  requestScanJob X scanner requesting = (Some (Ok (Some image)), w1) ->
  scanClient scanner = None ->
  downloadScanner X scanner (HubURL image)
    (add_event (EvLog Info "processing scan job %+v" [AImage image]) w1)
  = (Some (Err err), w2) ->
  requestAndRunScanJob X fuel scanner w
  = (Some (scanner, Some err),
     add_event
       (EvLog Error "unable to download scan client from %s: %s"
          [AStr (HubURL image); AStr err]) w2).
Proof.
  subst requesting. intros Hreq Hnil Hdl. unfold requestAndRunScanJob.
  run_unfold. rewrite Hreq. run_unfold. rewrite Hnil. run_unfold.
  rewrite Hdl. by run_unfold.
Qed.

Lemma cycle_job image client (w1 w2 : World) :
  requestScanJob X scanner requesting = (Some (Ok (Some image)), w1) ->
  let processing :=
    add_event (EvLog Info "processing scan job %+v" [AImage image]) w1 in
  (scanClient scanner = Some client /\ w2 = processing
   \/ scanClient scanner = None
      /\ downloadScanner X scanner (HubURL image) processing
         = (Some (Ok client), w2)) ->
  let report := report_of X client image w2 in
  let scanner' := with_scanClient client scanner in
  requestAndRunScanJob X fuel scanner w
  = match finishScan X fuel scanner' report
            (record_events
               [EvScan client (job_of X image); about_to_finish report] w2) with
    | (Some (Some err), w4) =>
        (Some (scanner', Some err),
         add_event (EvLog Error "unable to finish scan job: %s" [AStr err]) w4)
    | (Some None, w4) => (Some (scanner', None), w4)
    | (None, w4) => (None, w4)
    end.
Proof.
  subst requesting. intros Hreq processing Hclient report scanner'.
  subst processing report scanner'.
  unfold requestAndRunScanJob, report_of, scanned, job_of, about_to_finish,
    with_scanClient.
  run_unfold. rewrite Hreq. run_unfold.
  destruct Hclient as [[Hc ->]|[Hc Hdl]]; rewrite Hc; run_unfold;
    [|rewrite Hdl; run_unfold]; gather_events; cbn [app];
    (match goal with
     | |- ?lhs = ?rhs =>
         match lhs with
         | context [finishScan ?X ?f ?s ?r ?w] =>
             match rhs with
             | context [finishScan ?X' ?f' ?s' ?r' ?w'] =>
                 change (finishScan X' f' s' r' w')
                   with (finishScan X f s r w);
                 destruct (finishScan X f s r w) as [[[err|]|] w4]
             end
         end
     end; by run_unfold).
Qed.

End CyclePaths.

(** *** The polling loop, one round *)

Lemma pollLoop_stop fuel scanner (w : World) :
  select_stop_or_timer X (selects w) (stop scanner) requestScanJobPause
  = StopFired ->
  pollLoop X (S fuel) scanner w
  = (Some scanner,
     add_event (EvSelect (stop scanner) requestScanJobPause StopFired) w).
Proof. intros Hsel. cbn [pollLoop]. run_unfold. rewrite Hsel. by run_unfold. Qed.

Lemma pollLoop_tick fuel scanner (w : World) :
  select_stop_or_timer X (selects w) (stop scanner) requestScanJobPause
  = TimerFired ->
  pollLoop X (S fuel) scanner w
  = match requestAndRunScanJob X fuel scanner
            (add_event (EvSelect (stop scanner) requestScanJobPause TimerFired)
               w) with
    | (Some (scanner', Some err), w') =>
        pollLoop X fuel scanner'
          (add_event
             (EvLog Error "unable to run requestAndRunScanJob: %s" [AStr err])
             w')
    | (Some (scanner', None), w') => pollLoop X fuel scanner' w'
    | (None, w') => (None, w')
    end.
Proof.
  intros Hsel. cbn [pollLoop]. rewrite bind_run. unfold select at 1.
  rewrite Hsel. cbn beta iota zeta. rewrite bind_run.
  destruct (requestAndRunScanJob X fuel scanner _) as [[[scanner' [err|]]|] w'];
    by run_unfold.
Qed.


(** [StartRequestingScanJobs] is the polling loop after one log line. *)
Lemma StartRequestingScanJobs_run fuel scanner (w : World) :
  StartRequestingScanJobs X fuel scanner w
  = pollLoop X fuel scanner
      (add_event (EvLog Info "starting to request scan jobs" []) w).
Proof. unfold StartRequestingScanJobs. by run_unfold. Qed.

(** *** None of the loop looks at the process environment *)

Lemma blind_ret {A} (a : A) : env_blind (mret a : M A).
Proof. by intros e w. Qed.

Lemma blind_out_of_fuel {A} : env_blind (out_of_fuel : M A).
Proof. by intros e w. Qed.

Lemma blind_bind {A B} (m : M A) (k : A -> M B) :
  env_blind m -> (forall a, env_blind (k a)) -> env_blind (m ≫= k).
Proof.
  intros Hm Hk e w. rewrite !bind_run, Hm.
  destruct (m w) as [[a|] w1]; simpl; [apply Hk | done].
Qed.

Lemma blind_emit (ev : Event) : env_blind (emit ev).
Proof. by intros e w. Qed.

Lemma blind_post client url contentType body :
  env_blind (httpClient_Post X client url contentType body).
Proof. by intros e w. Qed.

Lemma blind_download hubURL user password port timeout :
  env_blind (call_downloadScanClient X hubURL user password port timeout).
Proof. by intros e w. Qed.

Lemma blind_build user port info puller :
  env_blind (call_NewHubScanClient X user port info puller).
Proof. by intros e w. Qed.

Lemma blind_scan client job : env_blind (call_Scan X client job).
Proof. by intros e w. Qed.

Lemma blind_select ch pause : env_blind (select X ch pause).
Proof. by intros e w. Qed.

Lemma blind_close_all (l : list nat) :
  env_blind (mapM resp_Body_Close l : M (list unit)).
Proof. intros e w. by rewrite !mapM_close_run. Qed.

Ltac blind_walk :=
  repeat match goal with
  | |- env_blind (mret _) => apply blind_ret
  | |- env_blind out_of_fuel => apply blind_out_of_fuel
  | |- env_blind (log _ _ _) => apply blind_emit
  | |- env_blind (recordScannerError _) => apply blind_emit
  | |- env_blind (recordHTTPStats _ _) => apply blind_emit
  | |- env_blind (resp_Body_Close _) => apply blind_emit
  | |- env_blind (httpClient_Post _ _ _ _ _) => apply blind_post
  | |- env_blind (call_downloadScanClient _ _ _ _ _ _) => apply blind_download
  | |- env_blind (call_NewHubScanClient _ _ _ _ _) => apply blind_build
  | |- env_blind (call_Scan _ _ _) => apply blind_scan
  | |- env_blind (select _ _ _) => apply blind_select
  | |- env_blind (mapM resp_Body_Close _) => apply blind_close_all
  | |- env_blind (_ ≫= _) => apply blind_bind; [|intros ?]
  | |- env_blind (match ?x with _ => _ end) => destruct x
  end.

Lemma requestScanJob_blind scanner : env_blind (requestScanJob X scanner).
Proof. unfold requestScanJob. cbn zeta. by blind_walk. Qed.

Lemma downloadScanner_blind scanner hubURL :
  env_blind (downloadScanner X scanner hubURL).
Proof. unfold downloadScanner. cbn zeta. by blind_walk. Qed.

Lemma finishScan_loop_blind fuel scanner url js :
  forall deferred, env_blind (finishScan_loop X fuel scanner url js deferred).
Proof.
  induction fuel as [|fuel IH]; intros deferred; cbn [finishScan_loop];
    blind_walk; apply IH.
Qed.

Lemma finishScan_blind fuel scanner results :
  env_blind (finishScan X fuel scanner results).
Proof.
  unfold finishScan. cbn zeta. blind_walk. apply finishScan_loop_blind.
Qed.

Lemma requestAndRunScanJob_blind fuel scanner :
  env_blind (requestAndRunScanJob X fuel scanner).
Proof.
  unfold requestAndRunScanJob.
  apply blind_bind; [apply blind_emit|intros _].
  apply blind_bind; [apply requestScanJob_blind|intros [[image|]|err]];
    [|by blind_walk|by blind_walk].
  apply blind_bind; [apply blind_emit|intros _].
  apply blind_bind.
  - destruct (scanClient scanner); [apply blind_ret|].
    apply blind_bind; [apply downloadScanner_blind|intros ?]. by blind_walk.
  - intros [client|err]; [|apply blind_ret]. cbn zeta.
    apply blind_bind; [apply blind_scan|intros ?].
    apply blind_bind; [apply blind_emit|intros _].
    apply blind_bind; [apply finishScan_blind|intros ?]. by blind_walk.
Qed.

Lemma pollLoop_blind fuel :
  forall scanner, env_blind (pollLoop X fuel scanner).
Proof.
  induction fuel as [|fuel IH]; intros scanner; cbn [pollLoop].
  - apply blind_out_of_fuel.
  - apply blind_bind; [apply blind_select|intros [|]]; [apply blind_ret|].
    apply blind_bind; [apply requestAndRunScanJob_blind|intros [scanner' err]].
    apply blind_bind; [by blind_walk|intros _]. apply IH.
Qed.

(** *** The loop returns only when the stop channel fires *)

Lemma pollLoop_returns_on_stop fuel :
  forall scanner (w : World) scanner' w',
    pollLoop X fuel scanner w = (Some scanner', w') ->
    exists evs,
      trace w' = trace w ++ evs
                 ++ [EvSelect (stop scanner) requestScanJobPause StopFired]
      /\ select_stop_or_timer X (selects w + count is_select evs)
           (stop scanner) requestScanJobPause = StopFired.
Proof.
  induction fuel as [|fuel IH]; intros scanner w scanner' w' Hrun;
    [discriminate|].
  destruct (select_stop_or_timer X (selects w) (stop scanner)
              requestScanJobPause) eqn:Hsel.
  - rewrite (pollLoop_stop _ _ _ Hsel) in Hrun. injection Hrun as <- <-.
    exists []. split; [done|]. simpl. by rewrite Nat.add_0_r.
  - rewrite (pollLoop_tick _ _ _ Hsel) in Hrun.
    set (w0 := add_event _ w) in Hrun.
    pose proof (requestAndRunScanJob_emits fuel scanner w0) as (Hev & _ & Hkept).
    destruct (requestAndRunScanJob X fuel scanner w0) as [[[s1 err]|] w1];
      [|by destruct err || discriminate].
    simpl in Hev, Hkept. destruct Hev as (evs1 & T1 & F1).
    assert (Hnosel : count is_select evs1 = 0%nat).
    { clear -F1. induction F1 as [|e evs [_ He] _ IHF]; [done|].
      unfold count in *. simpl. by rewrite He. }
    assert (Hlog : forall w2, trace w2 = trace w1 \/
                     (exists err', trace w2 = trace w1 ++
                        [EvLog Error "unable to run requestAndRunScanJob: %s"
                           [AStr err']]) ->
                   pollLoop X fuel s1 w2 = (Some scanner', w') ->
                   exists evs,
                     trace w' = trace w ++ evs
                       ++ [EvSelect (stop scanner) requestScanJobPause StopFired]
                     /\ select_stop_or_timer X (selects w + count is_select evs)
                          (stop scanner) requestScanJobPause = StopFired).
    { intros w2 Hw2 Hrest. destruct (IH _ _ _ _ Hrest) as (evs2 & T2 & S2).
      rewrite (kept_stop _ _ Hkept) in T2, S2.
      assert (exists mid, trace w2 = trace w ++ mid
                          /\ count is_select mid = 1%nat) as (mid & Tm & Cm).
      { destruct Hw2 as [Hw2|[err' Hw2]]; rewrite Hw2, T1; subst w0; simpl.
        - eexists. split; [by rewrite <- app_assoc|].
          rewrite count_app, Hnosel. reflexivity.
        - eexists. split; [by rewrite <- !app_assoc|].
          rewrite !count_app, Hnosel. reflexivity. }
      exists (mid ++ evs2). split.
      - by rewrite T2, Tm, <- !app_assoc.
      - rewrite count_app, Nat.add_assoc, Cm. unfold selects in *.
        by rewrite Tm, count_app, Cm in S2. }
    destruct err as [err|].
    + eapply Hlog; [|exact Hrun]. right. by exists err.
    + eapply Hlog; [|exact Hrun]. by left.
Qed.

Lemma finishScan_loop_posts P scanner fuel url js :
  P (EvPost (httpClient scanner) url "application/json" js) ->
  (forall e, bookkeeping e -> P e) ->
  forall deferred,
    emits P (fun _ => True) (finishScan_loop X fuel scanner url js deferred).
Proof.
  intros Hpost Hbook. induction fuel as [|fuel IH]; intros deferred;
    cbn [finishScan_loop]; emits_walk; try done; try apply IH;
    try (intros; by apply Hbook).
Qed.

Lemma finishScan_report_posts fuel scanner report :
  emits (report_post X scanner report) (fun _ => True)
    (finishScan X fuel scanner report).
Proof.
  unfold finishScan. cbn zeta.
  destruct (json_Marshal X report) as [js|err] eqn:Hjs; emits_walk; try done.
  apply finishScan_loop_posts; [by repeat split|].
  intros e He. by destruct e.
Qed.

Lemma report_frame_log l format args (w : World) :
  report_frame w (add_event (EvLog l format args) w) 0.
Proof.
  split; [|done]. exists [EvLog l format args]. by repeat constructor.
Qed.

Lemma finishScan_marshalled fuel scanner results js (w : World) :
  json_Marshal X results = Ok js ->
  finishScan X fuel scanner results w
  = finishScan_loop X fuel scanner (buildURL scanner (FinishedScanPath X)) js []
      (add_event
         (EvLog Debug "about to send over json text for finishing a job: %s"
            [AStr js]) w).
Proof. intros Hjs. unfold finishScan. rewrite Hjs. by run_unfold. Qed.

(** C1 (finishScan).  When the report serializes, the report loop POSTs
    again and again until the coordinator answers 200: a run that has
    returned has returned nil, after a 200 that no earlier answer was,
    with one POST per answer; once the k-th answer is the first 200 the
    run returns after exactly k+1 POSTs; and while no answer is a 200 the
    run never returns, whatever the fuel.  All that the run adds to the
    trace are POSTs, metrics, log lines and body closes: it never waits
    on the timer or looks at the stop channel ([report_frame]). *)
Theorem finishScan_retries_until_200 scanner results js (w : World) :
  json_Marshal X results = Ok js ->
  let url := buildURL scanner (FinishedScanPath X) in
  let accepted k := is200 (answer X scanner url js w k) in
  (forall fuel err w',
      finishScan X fuel scanner results w = (Some err, w') ->
      err = None
      /\ exists k, (k < fuel)%nat /\ accepted k = true
           /\ (forall j, (j < k)%nat -> accepted j = false)
           /\ report_frame w w' (S k))
  /\ (forall k, accepted k = true ->
        (forall j, (j < k)%nat -> accepted j = false) ->
        forall fuel, (k < fuel)%nat ->
        exists w', finishScan X fuel scanner results w = (Some None, w')
                   /\ report_frame w w' (S k))
  /\ ((forall k, accepted k = false) ->
      forall fuel,
        exists w', finishScan X fuel scanner results w = (None, w')
                   /\ report_frame w w' fuel).
Proof.
  intros Hjs url accepted.
  assert (Hspec : forall fuel,
    let '(res, w') := finishScan X fuel scanner results w in
    match res with
    | Some err =>
        err = None
        /\ exists k, (k < fuel)%nat /\ accepted k = true
             /\ (forall j, (j < k)%nat -> accepted j = false)
             /\ report_frame w w' (S k)
    | None =>
        (forall j, (j < fuel)%nat -> accepted j = false)
        /\ report_frame w w' fuel
    end).
  { intros fuel. rewrite (finishScan_marshalled _ _ _ _ _ Hjs). fold url.
    set (w0 := add_event _ w).
    pose proof (finishScan_loop_spec fuel scanner url js [] w0) as H.
    pose proof (report_frame_log Debug
      "about to send over json text for finishing a job: %s" [AStr js] w) as F0.
    fold w0 in F0.
    assert (Hsame : forall k, answer X scanner url js w0 k
                              = answer X scanner url js w k).
    { intros k. unfold answer. rewrite (report_frame_posts _ _ _ F0).
      by rewrite Nat.add_0_r. }
    destruct (finishScan_loop X fuel scanner url js [] w0) as [[err|] w'].
    - destruct H as (-> & k & Hk & Hyes & Hbefore & Hframe).
      split; [done|]. exists k. split; [exact Hk|].
      split; [by unfold accepted; rewrite <- Hsame|].
      split; [by intros j Hj; unfold accepted; rewrite <- Hsame; apply Hbefore|].
      apply (report_frame_trans _ _ _ 0 (S k) F0 Hframe).
    - destruct H as (Hall & Hframe).
      split; [by intros j Hj; unfold accepted; rewrite <- Hsame; apply Hall|].
      apply (report_frame_trans _ _ _ 0 fuel F0 Hframe). }
  split; [|split].
  - intros fuel err w' Hrun. specialize (Hspec fuel). rewrite Hrun in Hspec.
    exact Hspec.
  - intros k Hyes Hbefore fuel Hk. specialize (Hspec fuel).
    destruct (finishScan X fuel scanner results w) as [[err|] w'].
    + destruct Hspec as (-> & k' & Hk' & Hyes' & Hbefore' & Hframe).
      exists w'. split; [done|].
      assert (k' = k) as ->; [|done].
      destruct (Nat.lt_trichotomy k' k) as [Hlt|[Heq|Hgt]]; [|done|].
      * rewrite (Hbefore _ Hlt) in Hyes'. discriminate.
      * rewrite (Hbefore' _ Hgt) in Hyes. discriminate.
    + destruct Hspec as (Hall & _). rewrite (Hall _ Hk) in Hyes. discriminate.
  - intros Hnever fuel. specialize (Hspec fuel).
    destruct (finishScan X fuel scanner results w) as [[err|] w'].
    + destruct Hspec as (_ & k & _ & Hyes & _). rewrite Hnever in Hyes.
      discriminate.
    + exists w'. split; [done|]. apply Hspec.
Qed.

End Runs.

(** ** Properties of the request, the cycle and the loop *)

Section Properties.

Context {ScanClientInfo ImagePuller ScanClient ScanJob : Type}.

Abbreviation Event := (@Event ScanClientInfo ImagePuller ScanClient ScanJob).
Abbreviation World := (@World ScanClientInfo ImagePuller ScanClient ScanJob).
Abbreviation Externals := (@Externals ScanClientInfo ImagePuller ScanClient ScanJob).
Abbreviation Scanner := (@Scanner ScanClient).

Context (X : Externals).

(** The request of a cycle is issued from the world in which the cycle
    has logged that it is requesting: the same POST index. *)
Lemma posts_requesting (w : World) :
  posts (add_event (EvLog Debug "requesting scan job" []) w) = posts w.
Proof. by rewrite posts_add_event. Qed.

(** C4 (requestScanJob, requestAndRunScanJob), amended.  When the
    next-job request meets a transport error or a response that is not a
    200, it returns an error, after a log line and a metric: the error
    metric for a transport error, the HTTP outcome metric carrying the
    status code (and no error metric) for a response.  The caller logs
    the error and returns it with the scanner untouched: nothing is
    downloaded, scanned or reported in that tick. *)
Theorem requestScanJob_failure_skips_tick (fuel : nat) scanner (w : World) :
  let url := buildURL scanner (NextImagePath X) in
  let request : Event := EvPost (httpClient scanner) url EmptyString EmptyString in
  let reply := http_Post X (posts w) (httpClient scanner) url EmptyString EmptyString in
  is200 reply = false ->
  exists err evs,
    requestScanJob X scanner w = (Some (Err err), record_events (request :: evs) w)
    /\ match reply with
       | PostErr e =>
           err = e
           /\ evs = [EvScannerError "unable to POST get next image";
                     EvLog Error "unable to POST to %s: %s" [AStr url; AStr e]]
       | PostResp status _ =>
           err = "http POST request to " +:+ url
                 +:+ " failed with status code " +:+ fmt_d status
           /\ evs = [EvHTTPStats (NextImagePath X) status; EvLog Error err []]
       end
    /\ requestAndRunScanJob X fuel scanner w
       = (Some (scanner, Some err),
          record_events
            (EvLog Debug "requesting scan job" [] :: request :: evs
             ++ [EvLog Error "unable to request scan job: %s" [AStr err]]) w).
Proof.
  intros url request reply Hnot.
  assert (Hcycle : forall err evs,
    (forall w0 : World, posts w0 = posts w ->
       requestScanJob X scanner w0
       = (Some (Err err), record_events (request :: evs) w0)) ->
    requestAndRunScanJob X fuel scanner w
    = (Some (scanner, Some err),
       record_events
         (EvLog Debug "requesting scan job" [] :: request :: evs
          ++ [EvLog Error "unable to request scan job: %s" [AStr err]]) w)).
  { intros err evs Hreq.
    rewrite (cycle_request_failed X fuel scanner w err _
               (Hreq _ (posts_requesting w))).
    by gather_events. }
  destruct reply as [e|status body] eqn:Hans; subst reply.
  - eexists _, _. split; [by apply requestScanJob_transport_error|].
    split; [by split|]. apply Hcycle. intros w0 Hw0.
    apply requestScanJob_transport_error. by rewrite Hw0.
  - simpl in Hnot. apply Z.eqb_neq in Hnot.
    eexists _, _. split; [by eapply requestScanJob_bad_status|].
    split; [by split|]. apply Hcycle. intros w0 Hw0.
    eapply requestScanJob_bad_status; [by rewrite Hw0|done].
Qed.

(** C6 (requestScanJob, requestAndRunScanJob).  A 200 whose body decodes
    to a NextImage without ImageSpec is no error: the request returns a
    nil ImageSpec with a nil error, and the cycle returns nil after the
    one POST that asked for work, with no scan and no report. *)
Theorem no_work_completes_tick (fuel : nat) scanner (w : World) body nextImage :
  let url := buildURL scanner (NextImagePath X) in
  let request : Event := EvPost (httpClient scanner) url EmptyString EmptyString in
  let answered : list Event :=
    [request; EvHTTPStats (NextImagePath X) 200;
     EvLog Debug "http POST request to %s succeeded, got image %s"
       [AStr url; AStr "null"];
     EvBodyClose (posts w)] in
  http_Post X (posts w) (httpClient scanner) url EmptyString EmptyString
  = PostResp 200 (Ok body) ->
  json_Unmarshal X body = Ok nextImage ->
  NextImage_ImageSpec nextImage = None ->
  requestScanJob X scanner w = (Some (Ok None), record_events answered w)
  /\ exists w',
      requestAndRunScanJob X fuel scanner w = (Some (scanner, None), w')
      /\ w' = record_events
                (EvLog Debug "requesting scan job" [] :: answered
                 ++ [EvLog Debug "requested scan job, got nil" []]) w
      /\ scans w' = scans w
      /\ posts w' = S (posts w).
Proof.
  intros url request answered Hans Hjs Hnil.
  assert (Hreq : forall w0 : World, posts w0 = posts w ->
    requestScanJob X scanner w0 = (Some (Ok None), record_events answered w0)).
  { intros w0 Hw0. rewrite <- Hw0 in Hans.
    rewrite (requestScanJob_decoded X scanner w0 body nextImage Hans Hjs).
    subst answered request url. by rewrite Hnil, Hw0. }
  split; [by apply Hreq|].
  eexists. split; [|split; [|split]].
  - rewrite (cycle_no_work X fuel scanner w _ (Hreq _ (posts_requesting w))).
    by gather_events.
  - reflexivity.
  - subst answered request. unfold scans. simpl.
    by rewrite count_app, Nat.add_0_r.
  - subst answered request. unfold posts. simpl. rewrite count_app.
    unfold count at 2. simpl. lia.
Qed.

(** C9 (requestScanJob, requestAndRunScanJob).  A 200 whose body cannot
    be read makes the request fail as a transport failure does: the
    error metric is recorded, the read error is returned, and the cycle
    returns it without running a job.  The JSON decoder is not used: the
    outcome is the same whatever decoder is plugged in. *)
Theorem unreadable_body_fails_request (fuel : nat) scanner (w : World) err :
  let url := buildURL scanner (NextImagePath X) in
  let answered : list Event :=
    [EvPost (httpClient scanner) url EmptyString EmptyString;
     EvHTTPStats (NextImagePath X) 200;
     EvScannerError "unable to read response body";
     EvLog Error "unable to read response body from %s: %s"
       [AStr url; AStr err];
     EvBodyClose (posts w)] in
  http_Post X (posts w) (httpClient scanner) url EmptyString EmptyString
  = PostResp 200 (Err err) ->
  requestScanJob X scanner w = (Some (Err err), record_events answered w)
  /\ (exists w',
        requestAndRunScanJob X fuel scanner w = (Some (scanner, Some err), w')
        /\ w' = record_events
                  (EvLog Debug "requesting scan job" [] :: answered
                   ++ [EvLog Error "unable to request scan job: %s" [AStr err]])
                  w
        /\ scans w' = scans w
        /\ posts w' = S (posts w))
  /\ forall decode,
      requestAndRunScanJob (with_json_Unmarshal X decode) fuel scanner w
      = requestAndRunScanJob X fuel scanner w.
Proof.
  intros url answered Hans.
  assert (Hcycle : forall Y : Externals,
    NextImagePath Y = NextImagePath X ->
    http_Post Y = http_Post X ->
    requestAndRunScanJob Y fuel scanner w
    = (Some (scanner, Some err),
       record_events
         (EvLog Debug "requesting scan job" [] :: answered
          ++ [EvLog Error "unable to request scan job: %s" [AStr err]]) w)).
  { intros Y Hpath Hpost.
    assert (Hreq : requestScanJob Y scanner
                     (add_event (EvLog Debug "requesting scan job" []) w)
                   = (Some (Err err),
                      record_events answered
                        (add_event (EvLog Debug "requesting scan job" []) w))).
    { rewrite (requestScanJob_unreadable Y scanner _ err).
      - subst answered url. by rewrite Hpath, posts_requesting.
      - by rewrite Hpath, Hpost, posts_requesting. }
    rewrite (cycle_request_failed Y fuel scanner w err _ Hreq).
    by gather_events. }
  split; [by apply requestScanJob_unreadable|]. split.
  - eexists. split; [by apply Hcycle|]. split; [reflexivity|]. split.
    + subst answered. unfold scans. simpl. by rewrite count_app, Nat.add_0_r.
    + subst answered. unfold posts. simpl. rewrite count_app.
      unfold count at 2. simpl. lia.
  - intros decode. by rewrite !Hcycle.
Qed.

(** A cycle that got a job and whose provisioning attempt has returned:
    what the trace holds so far. *)
Lemma before_scan_frame scanner (w w1 w2 : World) got image made :
  requestScanJob X scanner (add_event (EvLog Debug "requesting scan job" []) w)
  = (Some got, w1) ->
  downloadScanner X scanner (HubURL image)
    (add_event (EvLog Info "processing scan job %+v" [AImage image]) w1)
  = (Some made, w2) ->
  exists evs1 evs2,
    trace w1 = trace w ++ EvLog Debug "requesting scan job" [] :: evs1
    /\ trace w2 = trace w1
                  ++ EvLog Info "processing scan job %+v" [AImage image] :: evs2
    /\ Forall (request_event X scanner) evs1
    /\ count is_post evs1 = 1%nat
    /\ Forall (provision_event scanner (HubURL image)) evs2
    /\ count is_download evs2 = 1%nat.
Proof.
  intros Hreq Hdl.
  destruct (requestScanJob_frame X scanner
              (add_event (EvLog Debug "requesting scan job" []) w))
    as (r1 & evs1 & E1 & F1 & C1).
  destruct (downloadScanner_frame X scanner (HubURL image)
              (add_event (EvLog Info "processing scan job %+v" [AImage image])
                 w1)) as (r2 & evs2 & E2 & F2 & C2).
  rewrite Hreq in E1. rewrite Hdl in E2.
  injection E1 as _ ->. injection E2 as _ ->.
  exists evs1, evs2. simpl. by rewrite <- !app_assoc.
Qed.

(** C3 (requestAndRunScanJob).  When the provisioning step of a job
    fails, the cycle returns the provisioning error with the scanner
    untouched; the executor has not been invoked, the one POST of the
    cycle is the request for the job, and no report has been POSTed.  In
    the polling loop the error is logged and the loop goes on to its
    next select with the same scanner. *)
Theorem provisioning_failure_drops_job (fuel : nat) scanner (w w1 w2 : World)
    image err :
  scanClient scanner = None ->
  requestScanJob X scanner (add_event (EvLog Debug "requesting scan job" []) w)
  = (Some (Ok (Some image)), w1) ->
  downloadScanner X scanner (HubURL image)
    (add_event (EvLog Info "processing scan job %+v" [AImage image]) w1)
  = (Some (Err err), w2) ->
  exists w',
    requestAndRunScanJob X fuel scanner w = (Some (scanner, Some err), w')
    /\ scans w' = scans w
    /\ posts w' = S (posts w)
    /\ (exists evs,
          trace w' = trace w ++ evs
          /\ Forall no_scan_no_report evs)
    /\ forall w0 : World,
        w = add_event (EvSelect (stop scanner) requestScanJobPause TimerFired) w0 ->
        select_stop_or_timer X (selects w0) (stop scanner) requestScanJobPause
        = TimerFired ->
        pollLoop X (S fuel) scanner w0
        = pollLoop X fuel scanner
            (add_event
               (EvLog Error "unable to run requestAndRunScanJob: %s" [AStr err])
               w').
Proof.
  intros Hnil Hreq Hdl.
  pose proof (cycle_provision_failed X fuel scanner w image err w1 w2
                Hreq Hnil Hdl) as Hcycle.
  destruct (before_scan_frame scanner w w1 w2 _ image _ Hreq Hdl)
    as (evs1 & evs2 & T1 & T2 & F1 & C1 & F2 & C2).
  assert (Hreq_quiet : forall e, request_event X scanner e ->
                              no_scan_no_report e).
  { intros [] He; simpl in He; try done. split; [done|].
    intros client' url' body' [= _ _ Hct _].
    destruct He as (_ & _ & Hempty & _). rewrite Hempty in Hct. discriminate. }
  assert (Hprov_quiet : forall e : Event,
                               provision_event scanner (HubURL image) e ->
                               no_scan_no_report e).
  { intros [] He; simpl in He; try done. }
  eexists. split; [exact Hcycle|].
  set (failed := EvLog Error "unable to download scan client from %s: %s"
                   [AStr (HubURL image); AStr err] : Event).
  assert (Htrace : trace (add_event failed w2)
            = trace w ++ (EvLog Debug "requesting scan job" [] :: evs1)
                ++ (EvLog Info "processing scan job %+v" [AImage image] :: evs2)
                ++ [failed]).
  { simpl. by rewrite T2, T1, <- !app_assoc. }
  split; [|split; [|split; [|]]].
  - unfold scans. rewrite Htrace, !count_app, !count_cons. cbn [is_scan failed].
    rewrite (count_none is_scan _ evs1 (fun e He => proj1 (Hreq_quiet e He)) F1).
    rewrite (count_none is_scan _ evs2 (fun e He => proj1 (Hprov_quiet e He)) F2).
    unfold count. simpl. lia.
  - unfold posts. rewrite Htrace, !count_app, !count_cons. cbn [is_post failed].
    rewrite C1.
    rewrite (count_none is_post (provision_event scanner (HubURL image)) evs2);
      [unfold count; simpl; lia| |done].
    by intros [] He.
  - eexists. split; [exact Htrace|].
    apply Forall_app. split; [|apply Forall_app; split].
    + constructor; [by split|]. eapply Forall_impl; [exact F1|exact Hreq_quiet].
    + constructor; [by split|]. eapply Forall_impl; [exact F2|exact Hprov_quiet].
    + by repeat constructor.
  - intros w0 -> Hsel. rewrite (pollLoop_tick X fuel scanner w0 Hsel).
    by rewrite Hcycle.
Qed.

Lemma scanner_kept_cached (s s' : Scanner) client :
  scanClient s = Some client -> scanner_kept s s' -> s' = s.
Proof.
  intros Hc [A B C D E F [G|G]]; [congruence|].
  destruct s, s'; simpl in *. congruence.
Qed.

Lemma loop_event_reuses (s : Scanner) client (e : Event) :
  scanClient s = Some client -> loop_event s e -> reuses client e.
Proof.
  intros Hc He. destruct e; simpl in He; try (by repeat split).
  - destruct He as [_ He]. congruence.
  - congruence.
  - repeat split; try done. intros c j [= -> _].
    destruct He as [He|He]; congruence.
Qed.

(** C2 (requestAndRunScanJob, downloadScanner).  With an executor
    cached, the cycle and the whole polling loop after it download
    nothing, build nothing, scan with that executor only and leave the
    scanner as it is, whatever the jobs say.  With none cached, a job
    makes one provisioning attempt for its own hub URL; a failed attempt
    leaves the scanner without executor, so the next job attempts again,
    and after a successful one the cycle goes on with the scanner
    holding the executor that was built. *)
Theorem executor_provisioned_once (fuel : nat) scanner (w : World) :
  (forall client,
      scanClient scanner = Some client ->
      (appends (reuses client) w (requestAndRunScanJob X fuel scanner w).2
       /\ forall scanner' err,
            (requestAndRunScanJob X fuel scanner w).1 = Some (scanner', err) ->
            scanner' = scanner)
      /\ appends (reuses client) w (pollLoop X fuel scanner w).2
      /\ forall scanner',
           (pollLoop X fuel scanner w).1 = Some scanner' -> scanner' = scanner)
  /\ (scanClient scanner = None ->
      forall image (w1 : World),
        requestScanJob X scanner
          (add_event (EvLog Debug "requesting scan job" []) w)
        = (Some (Ok (Some image)), w1) ->
        exists made w2,
          downloadScanner X scanner (HubURL image)
            (add_event (EvLog Info "processing scan job %+v" [AImage image]) w1)
          = (Some made, w2)
          /\ downloads w2 = S (downloads w)
          /\ match made with
             | Err err =>
                 exists w',
                   requestAndRunScanJob X fuel scanner w
                   = (Some (scanner, Some err), w')
             | Ok client =>
                 let scanner' := with_scanClient client scanner in
                 let report := report_of X client image w2 in
                 requestAndRunScanJob X fuel scanner w
                 = match finishScan X fuel scanner' report
                         (record_events
                            [EvScan client (job_of X image);
                             about_to_finish report] w2) with
                   | (Some (Some err), w4) =>
                       (Some (scanner', Some err),
                        add_event
                          (EvLog Error "unable to finish scan job: %s"
                             [AStr err]) w4)
                   | (Some None, w4) => (Some (scanner', None), w4)
                   | (None, w4) => (None, w4)
                   end
             end).
Proof.
  split.
  - intros client Hc.
    destruct (requestAndRunScanJob_emits X fuel scanner w) as (Ha & _ & Hk).
    destruct (pollLoop_emits X fuel scanner w) as (Ha' & _ & Hk').
    split; [split|split].
    + eapply appends_weaken; [|exact Ha].
      intros e [He _]. by eapply loop_event_reuses.
    + intros scanner' err Hres. rewrite Hres in Hk. simpl in Hk.
      by eapply scanner_kept_cached.
    + eapply appends_weaken; [|exact Ha']. intros e.
      by apply loop_event_reuses.
    + intros scanner' Hres. rewrite Hres in Hk'.
      by eapply scanner_kept_cached.
  - intros Hnil image w1 Hreq.
    destruct (downloadScanner_frame X scanner (HubURL image)
                (add_event (EvLog Info "processing scan job %+v" [AImage image])
                   w1)) as (made & evs & Hdl & _ & _).
    exists made, (record_events evs
                    (add_event
                       (EvLog Info "processing scan job %+v" [AImage image]) w1)).
    split; [exact Hdl|].
    destruct (before_scan_frame scanner w w1 _ _ image _ Hreq Hdl)
      as (evs1 & evs2 & T1 & T2 & F1 & C1 & F2 & C2).
    split.
    + unfold downloads. rewrite T2, T1, !count_app, !count_cons.
      cbn [is_download]. rewrite C2.
      rewrite (count_none is_download (request_event X scanner) evs1);
        [lia| |done].
      by intros [] He.
    + destruct made as [client|err].
      * exact (cycle_job X fuel scanner w image client w1 _ Hreq
                 (or_intror (conj Hnil Hdl))).
      * eexists. by eapply cycle_provision_failed.
Qed.

(** C5 (requestAndRunScanJob), amended.  Once a job has been received
    and an executor is at hand, the cycle scans, builds one report and
    hands it to [finishScan]: the report carries the ImageSpec that was
    received; its error string is empty when the scan returned nil and
    is the message of the error when the scan failed (so it is non-empty
    exactly when that message is).  That report is the one logged and
    the one serialized into every POST that follows. *)
Theorem report_carries_scan_outcome (fuel : nat) scanner (w w1 w2 : World)
    image client :
  requestScanJob X scanner (add_event (EvLog Debug "requesting scan job" []) w)
  = (Some (Ok (Some image)), w1) ->
  let processing :=
    add_event (EvLog Info "processing scan job %+v" [AImage image]) w1 in
  (scanClient scanner = Some client /\ w2 = processing
   \/ scanClient scanner = None
      /\ downloadScanner X scanner (HubURL image) processing
         = (Some (Ok client), w2)) ->
  let outcome := ScanClient_Scan X (scans w2) client (job_of X image) in
  let report := report_of X client image w2 in
  let scanner' := with_scanClient client scanner in
  Finished_ImageSpec report = image
  /\ (outcome = None -> Finished_Err report = EmptyString)
  /\ (forall err, outcome = Some err -> Finished_Err report = err)
  /\ requestAndRunScanJob X fuel scanner w
     = match finishScan X fuel scanner' report
             (record_events
                [EvScan client (job_of X image); about_to_finish report] w2) with
       | (Some (Some err), w4) =>
           (Some (scanner', Some err),
            add_event (EvLog Error "unable to finish scan job: %s" [AStr err])
              w4)
       | (Some None, w4) => (Some (scanner', None), w4)
       | (None, w4) => (None, w4)
       end
  /\ exists evs,
      trace (requestAndRunScanJob X fuel scanner w).2
      = trace w2 ++ EvScan client (job_of X image) :: about_to_finish report :: evs
      /\ Forall (report_post X scanner' report) evs.
Proof.
  intros Hreq processing Hclient outcome report scanner'.
  pose proof (cycle_job X fuel scanner w image client w1 w2 Hreq Hclient)
    as Hcycle. cbn zeta in Hcycle. fold report scanner' in Hcycle.
  split; [done|]. split; [|split; [|split; [exact Hcycle|]]].
  - intros Hout. subst report. unfold report_of, scanned. simpl.
    fold outcome. by rewrite Hout.
  - intros err Hout. subst report. unfold report_of, scanned. simpl.
    fold outcome. by rewrite Hout.
  - rewrite Hcycle.
    destruct (finishScan_report_posts X fuel scanner' report
                (record_events
                   [EvScan client (job_of X image); about_to_finish report] w2))
      as ((evs & T & F) & _ & _).
    destruct (finishScan X fuel scanner' report _) as [[[err|]|] w4];
      simpl in T |- *.
    + exists (evs ++ [EvLog Error "unable to finish scan job: %s" [AStr err]]).
      split; [by rewrite T, <- !app_assoc|].
      apply Forall_app. split; [done|]. by repeat constructor.
    + exists evs. split; [by rewrite T, <- !app_assoc|done].
    + exists evs. split; [by rewrite T, <- !app_assoc|done].
Qed.

(** C7 (StartRequestingScanJobs).  At each select of the polling loop:
    when the stop channel fires the loop returns at once, the world
    gaining nothing but the select itself; when the timer fires a cycle
    is run to its end and, whatever it returns, error or not, the loop
    goes round again.  A cycle does not look at the stop channel or the
    timer: it runs the same whatever they would answer.  A loop that has
    returned has seen the stop channel fire at its last select, and a
    loop whose stop channel never fires never returns. *)
Theorem polling_loop_stops_on_cancel_only (fuel : nat) scanner (w : World) :
  let wake :=
    select_stop_or_timer X (selects w) (stop scanner) requestScanJobPause in
  (wake = StopFired ->
   pollLoop X (S fuel) scanner w
   = (Some scanner,
      add_event (EvSelect (stop scanner) requestScanJobPause StopFired) w))
  /\ (wake = TimerFired ->
      pollLoop X (S fuel) scanner w
      = match requestAndRunScanJob X fuel scanner
                (add_event
                   (EvSelect (stop scanner) requestScanJobPause TimerFired) w)
        with
        | (Some (scanner', Some err), w') =>
            pollLoop X fuel scanner'
              (add_event
                 (EvLog Error "unable to run requestAndRunScanJob: %s"
                    [AStr err]) w')
        | (Some (scanner', None), w') => pollLoop X fuel scanner' w'
        | (None, w') => (None, w')
        end)
  /\ (forall sel,
        requestAndRunScanJob (with_select X sel) fuel scanner w
        = requestAndRunScanJob X fuel scanner w)
  /\ (forall scanner' w',
        pollLoop X fuel scanner w = (Some scanner', w') ->
        exists evs,
          trace w' = trace w ++ evs
                     ++ [EvSelect (stop scanner) requestScanJobPause StopFired]
          /\ select_stop_or_timer X (selects w + count is_select evs)
               (stop scanner) requestScanJobPause = StopFired)
  /\ ((forall n, select_stop_or_timer X n (stop scanner) requestScanJobPause
                 = TimerFired) ->
      (pollLoop X fuel scanner w).1 = None).
Proof.
  intros wake. split; [apply pollLoop_stop|]. split; [apply pollLoop_tick|].
  split; [reflexivity|]. split; [apply pollLoop_returns_on_stop|].
  intros Hnever.
  destruct (pollLoop X fuel scanner w) as [[scanner'|] w'] eqn:Hrun; [|done].
  destruct (pollLoop_returns_on_stop X fuel scanner w scanner' w' Hrun)
    as (evs & _ & Hstop).
  rewrite Hnever in Hstop. discriminate.
Qed.

(** *** Construction *)

Lemma env_add_event (e : Event) (w : World) : env (add_event e w) = env w.
Proof. reflexivity. Qed.

Lemma setenv_invalid_fixed_name value :
  setenv_invalid "BD_HUB_PASSWORD" value = has_byte NUL value.
Proof. reflexivity. Qed.

Section NewScannerPaths.

Variables (cfg : Config) (ch : Chan) (w : World).

Let name := Hub_PasswordEnvVar (Hub cfg).
Let instantiating : Event :=
  EvLog Info "instantiating Scanner with config %+v" [AConfig cfg].

Lemma NewScanner_missing :
  getenv (env w) name = None ->
  NewScanner cfg ch w
  = (Some (Err ("unable to get Hub password: environment variable "
                +:+ name +:+ " not set")),
     record_events [instantiating; EvLookupEnv name] w).
Proof.
  subst name instantiating. intros Hget. unfold NewScanner, os_LookupEnv.
  run_unfold. rewrite env_add_event, Hget. run_unfold. by gather_events.
Qed.

Lemma NewScanner_found value :
  getenv (env w) name = Some value ->
  has_byte NUL value = false ->
  NewScanner cfg ch w
  = (Some (Ok {| scanClient := None;
                 httpClient := {| Timeout := 5 * time_Second |};
                 perceptorHost := Perceptor_Host (Perceptor cfg);
                 perceptorPort := Perceptor_Port (Perceptor cfg);
                 config := cfg;
                 stop := ch;
                 hubPassword := value |}),
     {| env := <["BD_HUB_PASSWORD" := value]> (env w);
        trace := trace w ++ [instantiating; EvLookupEnv name;
                             EvSetenv "BD_HUB_PASSWORD" value] |}).
Proof.
  subst name instantiating. intros Hget Hnul.
  unfold NewScanner, os_LookupEnv, os_Setenv.
  run_unfold. rewrite env_add_event, Hget. run_unfold.
  rewrite setenv_invalid_fixed_name, Hnul. run_unfold.
  unfold add_event, set_env. simpl. by rewrite <- !app_assoc.
Qed.

Lemma NewScanner_publish_failed value :
  getenv (env w) name = Some value ->
  has_byte NUL value = true ->
  NewScanner cfg ch w
  = (Some (Err "setenv: invalid argument"),
     record_events
       [instantiating; EvLookupEnv name; EvSetenv "BD_HUB_PASSWORD" value;
        EvLog Error "unable to set BD_HUB_PASSWORD environment variable: %s"
          [AStr "setenv: invalid argument"]] w).
Proof.
  subst name instantiating. intros Hget Hnul.
  unfold NewScanner, os_LookupEnv, os_Setenv.
  run_unfold. rewrite env_add_event, Hget. run_unfold.
  rewrite setenv_invalid_fixed_name, Hnul. run_unfold. by gather_events.
Qed.

End NewScannerPaths.

Lemma getenv_wf (e : gmap string string) key value :
  env_wf e -> getenv e key = Some value -> has_byte NUL value = false.
Proof.
  intros Hwf Hget. unfold getenv in Hget.
  destruct (String.eqb key EmptyString); [discriminate|]. by eapply Hwf.
Qed.

(** C8 (NewScanner).  In a process environment whose values are C
    strings, construction fails, giving no Scanner, exactly when the
    variable named by the config's credential setting is not set.  When
    it is set, construction gives a Scanner, the value is found in
    BD_HUB_PASSWORD afterwards, and the Scanner holds that value, no
    executor yet, and an HTTP client whose timeout is five seconds. *)
Theorem NewScanner_needs_credential (cfg : Config) (ch : Chan) (w : World) :
  env_wf (env w) ->
  let name := Hub_PasswordEnvVar (Hub cfg) in
  ((exists err w', NewScanner cfg ch w = (Some (Err err), w'))
   <-> getenv (env w) name = None)
  /\ forall value,
      getenv (env w) name = Some value ->
      exists scanner w',
        NewScanner cfg ch w = (Some (Ok scanner), w')
        /\ env w' !! "BD_HUB_PASSWORD" = Some value
        /\ hubPassword scanner = value
        /\ scanClient scanner = None
        /\ httpClient scanner = {| Timeout := 5 * time_Second |}
        /\ Timeout (httpClient scanner) = 5000000000.
Proof.
  intros Hwf name. split; [split|].
  - intros (err & w' & Hfail).
    destruct (getenv (env w) name) as [value|] eqn:Hget; [|done].
    rewrite (NewScanner_found cfg ch w value Hget (getenv_wf _ _ _ Hwf Hget))
      in Hfail. discriminate.
  - intros Hget. eexists _, _. by apply NewScanner_missing.
  - intros value Hget. eexists _, _.
    split; [by apply NewScanner_found; [|eapply getenv_wf]|].
    simpl. split; [by rewrite lookup_insert_eq|done].
Qed.

(** C10 (NewScanner, downloadScanner).  Construction reads the process
    environment once, and the Scanner it gives holds the value read.
    From then on, in any world and with any environment, every download
    of the polling loop is given that value, the loop never reads or
    writes the environment, and it runs the same under any other
    environment. *)
Theorem credential_captured_at_construction (cfg : Config) (ch : Chan)
    (w0 w1 : World) scanner :
  NewScanner cfg ch w0 = (Some (Ok scanner), w1) ->
  getenv (env w0) (Hub_PasswordEnvVar (Hub cfg)) = Some (hubPassword scanner)
  /\ (exists evs, trace w1 = trace w0 ++ evs /\ count is_lookup evs = 1%nat)
  /\ forall fuel (w : World),
      appends (fun e => match e with
                        | EvDownload _ _ password _ _ =>
                            password = hubPassword scanner
                        | EvLookupEnv _ | EvSetenv _ _ => False
                        | _ => True
                        end) w (pollLoop X fuel scanner w).2
      /\ forall e,
          pollLoop X fuel scanner (set_env e w)
          = ((pollLoop X fuel scanner w).1,
             set_env e (pollLoop X fuel scanner w).2).
Proof.
  intros Hnew.
  destruct (getenv (env w0) (Hub_PasswordEnvVar (Hub cfg))) as [value|] eqn:Hget.
  - destruct (has_byte NUL value) eqn:Hnul.
    + rewrite (NewScanner_publish_failed cfg ch w0 value Hget Hnul) in Hnew.
      discriminate.
    + rewrite (NewScanner_found cfg ch w0 value Hget Hnul) in Hnew.
      injection Hnew as <- <-. split; [done|]. split; [by eexists|].
      intros fuel w. split.
      * eapply appends_weaken; [|apply (pollLoop_emits X fuel _ w)].
        intros [] He; simpl in He; try done. by destruct He.
      * intros e. apply pollLoop_blind.
  - rewrite (NewScanner_missing cfg ch w0 Hget) in Hnew. discriminate.
Qed.

End Properties.

(** ** Concrete runs *)

(** The response sequence 500, 500, 200: exactly three POSTs, and the
    call returns nil after the third and not before. *)
Lemma finishScan_500_500_200 :
  let X := Mock.externals Mock.refusing_twice in
  let report := {| Finished_Err := EmptyString;
                   Finished_ImageSpec := Mock.image |} in
  let w := Mock.boot ∅ in
  json_Marshal X report = Ok "{Err:,Sha:s1}"
  /\ (exists w',
        finishScan X 3 (Mock.scanner (Some "client")) report w = (Some None, w')
        /\ report_frame w w' 3)
  /\ (finishScan X 2 (Mock.scanner (Some "client")) report w).1 = None.
Proof.
  intros X report w. split; [reflexivity|]. split; [|reflexivity].
  destruct (finishScan_retries_until_200 X (Mock.scanner (Some "client"))
              report "{Err:,Sha:s1}" w eq_refl) as (_ & Huntil & _).
  apply (Huntil 2%nat).
  - reflexivity.
  - intros [|[|j]] Hj; [reflexivity | reflexivity | lia].
  - lia.
Defined.

(** A scanner with a cached executor keeps it over a whole run, and a
    scanner without one makes one attempt for the job at hand. *)
Lemma executor_reused_and_provisioned :
  let X := Mock.externals (Mock.one_job None) in
  let w := Mock.boot ∅ in
  (appends (reuses "client") w (pollLoop X 4 (Mock.scanner (Some "client")) w).2
   /\ (pollLoop X 4 (Mock.scanner (Some "client")) w).1
      = Some (Mock.scanner (Some "client")))
  /\ exists made w2,
      downloadScanner X (Mock.scanner None) "http://hub"
        (add_event (EvLog Info "processing scan job %+v" [AImage Mock.image])
           (requestScanJob X (Mock.scanner None)
              (add_event (EvLog Debug "requesting scan job" []) w)).2)
      = (Some made, w2)
      /\ downloads w2 = 1%nat.
Proof.
  intros X w. split.
  - destruct (proj1 (executor_provisioned_once X 4
                       (Mock.scanner (Some "client")) w) "client" eq_refl)
      as (_ & Happ & _).
    split; [exact Happ | reflexivity].
  - destruct (proj2 (executor_provisioned_once X 4 (Mock.scanner None) w)
                eq_refl Mock.image _ eq_refl) as (made & w2 & Hdl & Hn & _).
    exists made, w2. by split.
Defined.

(** The hub is down: the job is dropped with the download error, after
    one POST and no scan. *)
Lemma hub_down_drops_job :
  let X := Mock.externals Mock.hub_down in
  let w := Mock.boot ∅ in
  exists w',
    requestAndRunScanJob X 1 (Mock.scanner None) w
    = (Some (Mock.scanner None, Some "hub unreachable"), w')
    /\ scans w' = 0%nat /\ posts w' = 1%nat.
Proof.
  intros X w.
  destruct (provisioning_failure_drops_job X 1 (Mock.scanner None) w _ _
              Mock.image "hub unreachable" eq_refl eq_refl eq_refl)
    as (w' & Hrun & Hscans & Hposts & _).
  exists w'. by repeat split.
Defined.

(** A 500 to the request for work: an error, the HTTP outcome metric and
    a log line. *)
Lemma request_refused_skips_tick :
  let X := Mock.externals (Mock.replying (PostResp 500 (Ok "busy"))) in
  let w := Mock.boot ∅ in
  exists err evs,
    requestScanJob X (Mock.scanner None) w
    = (Some (Err err),
       record_events
         (EvPost (httpClient (Mock.scanner None))
            "http://perceptor:3001/nextimage" EmptyString EmptyString :: evs) w)
    /\ evs = [EvHTTPStats "nextimage" 500; EvLog Error err []].
Proof.
  intros X w.
  destruct (requestScanJob_failure_skips_tick X 1 (Mock.scanner None) w eq_refl)
    as (err & evs & Hreq & (_ & Hevs) & _).
  exists err, evs. by split.
Defined.

(** Counterexample to C4 as stated, on a 500: the request returns an
    error and logs it, but no error metric is in the trace. *)
Lemma request_refused_records_no_error_metric :
  let X := Mock.externals (Mock.replying (PostResp 500 (Ok "busy"))) in
  let run := requestScanJob X (Mock.scanner None) (Mock.boot ∅) in
  http_Post X 0 (httpClient (Mock.scanner None))
    "http://perceptor:3001/nextimage" EmptyString EmptyString
  = PostResp 500 (Ok "busy")
  /\ run.1
     = Some (Err "http POST request to http://perceptor:3001/nextimage failed with status code 500")
  /\ ~ exists label, In (EvScannerError label) (trace run.2).
Proof.
  intros X run. split; [reflexivity|]. split; [reflexivity|].
  intros (label & Hin). vm_compute in Hin.
  repeat (destruct Hin as [Hin|Hin]; [discriminate|]). exact Hin.
Qed.

(** A failed scan is reported with its message and the ImageSpec that
    was handed out. *)
Lemma failed_scan_is_reported :
  let X := Mock.externals (Mock.one_job (Some "scan failed")) in
  let s := Mock.scanner (Some "client") in
  let w := Mock.boot ∅ in
  let w2 :=
    add_event (EvLog Info "processing scan job %+v" [AImage Mock.image])
      (requestScanJob X s (add_event (EvLog Debug "requesting scan job" []) w)).2
  in
  report_of X "client" Mock.image w2
  = {| Finished_Err := "scan failed"; Finished_ImageSpec := Mock.image |}
  /\ exists evs,
      trace (requestAndRunScanJob X 1 s w).2
      = trace w2
        ++ EvScan "client" (job_of X Mock.image)
           :: about_to_finish (report_of X "client" Mock.image w2) :: evs.
Proof.
  intros X s w w2. split; [reflexivity|].
  destruct (report_carries_scan_outcome X 1 s w _ w2 Mock.image "client"
              eq_refl (or_introl (conj eq_refl eq_refl)))
    as (_ & _ & _ & _ & evs & Htrace & _).
  by exists evs.
Defined.

(** Counterexample to C5 as stated, when the executor's error has an
    empty message: the scan has failed, and the report of the cycle
    carries an empty error string. *)
Lemma failed_scan_with_empty_message :
  let X := Mock.externals (Mock.one_job (Some EmptyString)) in
  let s := Mock.scanner (Some "client") in
  let run := requestAndRunScanJob X 1 s (Mock.boot ∅) in
  ScanClient_Scan X 0 "client" (job_of X Mock.image) = Some EmptyString
  /\ In (EvScan "client" (job_of X Mock.image)) (trace run.2)
  /\ ~ (forall report,
          In (about_to_finish report) (trace run.2) ->
          Finished_Err report <> EmptyString).
Proof.
  intros X s run. split; [reflexivity|]. split.
  - vm_compute. do 6 right. by left.
  - intros Hall.
    apply (Hall {| Finished_Err := EmptyString;
                   Finished_ImageSpec := Mock.image |}); [|reflexivity].
    vm_compute. do 7 right. by left.
Qed.

(** No work: the tick ends after the request, with a nil error. *)
Lemma idle_tick :
  let X := Mock.externals (Mock.replying (PostResp 200 (Ok "idle"))) in
  let w := Mock.boot ∅ in
  exists w',
    requestAndRunScanJob X 1 (Mock.scanner None) w
    = (Some (Mock.scanner None, None), w')
    /\ scans w' = 0%nat /\ posts w' = 1%nat.
Proof.
  intros X w.
  destruct (no_work_completes_tick X 1 (Mock.scanner None) w "idle"
              {| NextImage_ImageSpec := None |} eq_refl eq_refl eq_refl)
    as (_ & w' & Hrun & _ & Hscans & Hposts).
  exists w'. by repeat split.
Defined.

(** The stop channel fires at the first select: the loop returns with
    the select as only event. *)
Lemma stop_at_first_select :
  let X := Mock.externals Mock.quiet in
  let w := Mock.boot ∅ in
  pollLoop X 1 (Mock.scanner None) w
  = (Some (Mock.scanner None),
     add_event (EvSelect 0%nat requestScanJobPause StopFired) w).
Proof.
  intros X w.
  exact (proj1 (polling_loop_stops_on_cancel_only X 0 (Mock.scanner None) w)
           eq_refl).
Defined.

(** The credential is set: construction succeeds and publishes it. *)
Lemma NewScanner_with_credential :
  let w : @World string (string * Z) string (list string) :=
    Mock.boot {[ "PCP_HUBUSERPASSWORD" := "secret" ]} in
  env_wf (env w)
  /\ exists scanner w',
      NewScanner Mock.cfg 0%nat w = (Some (Ok scanner), w')
      /\ env w' !! "BD_HUB_PASSWORD" = Some "secret"
      /\ Timeout (httpClient scanner) = 5000000000.
Proof.
  intros w.
  assert (Hwf : env_wf (env w)).
  { intros key value Hlook.
    change (({[ "PCP_HUBUSERPASSWORD" := "secret" ]} : gmap string string)
              !! key = Some value) in Hlook.
    apply lookup_singleton_Some in Hlook as [_ <-]. reflexivity. }
  split; [exact Hwf|].
  destruct (proj2 (NewScanner_needs_credential Mock.cfg 0%nat w Hwf)
              "secret" eq_refl)
    as (scanner & w' & Hnew & Henv & _ & _ & _ & Htimeout).
  by exists scanner, w'.
Defined.

(** An unreadable body: the request fails with the read error. *)
Lemma unreadable_body_tick :
  let X := Mock.externals (Mock.replying (PostResp 200 (Err "unexpected EOF"))) in
  let w := Mock.boot ∅ in
  exists w',
    requestAndRunScanJob X 1 (Mock.scanner None) w
    = (Some (Mock.scanner None, Some "unexpected EOF"), w')
    /\ scans w' = 0%nat /\ posts w' = 1%nat.
Proof.
  intros X w.
  destruct (unreadable_body_fails_request X 1 (Mock.scanner None) w
              "unexpected EOF" eq_refl)
    as (_ & (w' & Hrun & _ & Hscans & Hposts) & _).
  exists w'. by repeat split.
Defined.

(** The credential read at construction is the one the loop downloads
    with, whatever the environment holds later. *)
Lemma credential_survives_env_change :
  let X := Mock.externals (Mock.one_job None) in
  let built :=
    NewScanner Mock.cfg 0%nat
      (Mock.boot {[ "PCP_HUBUSERPASSWORD" := "secret" ]}) in
  exists scanner,
    built.1 = Some (Ok scanner)
    /\ hubPassword scanner = "secret"
    /\ forall e,
        pollLoop X 3 scanner (set_env e built.2)
        = ((pollLoop X 3 scanner built.2).1,
           set_env e (pollLoop X 3 scanner built.2).2).
Proof.
  intros X built.
  assert (Hbuilt : exists scanner, built = (Some (Ok scanner), built.2)
                                   /\ hubPassword scanner = "secret").
  { eexists. split; reflexivity. }
  destruct Hbuilt as (scanner & Hbuilt & Hpw).
  exists scanner. split; [by rewrite Hbuilt|]. split; [exact Hpw|].
  intros e.
  destruct (credential_captured_at_construction X Mock.cfg 0%nat _ _ scanner
              Hbuilt) as (_ & _ & Hloop).
  apply (Hloop 3%nat built.2).
Defined.

(** End to end: the first poll hands out an image, provisioning and scan
    succeed, and the coordinator sees one report, with an empty error
    string and the same image; then the stop channel fires. *)
Example one_job_end_to_end :
  let X := Mock.externals (Mock.one_job None) in
  let run := StartRequestingScanJobs X 3 (Mock.scanner None) (Mock.boot ∅) in
  run.1 = Some (Mock.scanner (Some "client"))
  /\ List.filter is_post (trace run.2)
     = [EvPost {| Timeout := 5000000000 |} "http://perceptor:3001/nextimage"
          EmptyString EmptyString;
        EvPost {| Timeout := 5000000000 |} "http://perceptor:3001/finishedscan"
          "application/json" "{Err:,Sha:s1}"]
  /\ In (about_to_finish {| Finished_Err := EmptyString;
                            Finished_ImageSpec := Mock.image |})
       (trace run.2).
Proof.
  intros X run. split; [reflexivity|]. split; [reflexivity|].
  vm_compute. do 12 right. by left.
Qed.

(** ** Further properties of the request, the report and the loop *)

Section Further.

Context {ScanClientInfo ImagePuller ScanClient ScanJob : Type}.

Abbreviation Event := (@Event ScanClientInfo ImagePuller ScanClient ScanJob).
Abbreviation World := (@World ScanClientInfo ImagePuller ScanClient ScanJob).
Abbreviation Externals := (@Externals ScanClientInfo ImagePuller ScanClient ScanJob).
Abbreviation Scanner := (@Scanner ScanClient).

Context (X : Externals).

(** Compare the call counters of [record_events evs w], for an explicit
    list [evs], with those of [w]. *)
Ltac count_recorded :=
  unfold posts, downloads, builds, scans, selects;
  cbn [trace record_events add_event];
  rewrite ?count_app; unfold count; simpl; lia.

(** Split on what the coordinator answers to the request for work, in
    the order the source tests it. *)
Ltac split_reply X scanner w :=
  let Hans := fresh "Hans" in
  let Hst := fresh "Hst" in
  let Hjs := fresh "Hjs" in
  destruct (http_Post X (posts w) (httpClient scanner)
              (buildURL scanner (NextImagePath X)) EmptyString EmptyString)
    as [?err|?status [?body|?err]] eqn:Hans;
  [ pose proof (requestScanJob_transport_error X scanner w _ Hans)
  | destruct (Z.eq_dec status 200) as [->|Hst];
    [ destruct (json_Unmarshal X body) as [?next|?err] eqn:Hjs;
      [ pose proof (requestScanJob_decoded X scanner w _ _ Hans Hjs)
      | pose proof (requestScanJob_malformed X scanner w _ _ Hans Hjs) ]
    | pose proof (requestScanJob_bad_status X scanner w _ _ Hans Hst) ]
  | destruct (Z.eq_dec status 200) as [->|Hst];
    [ pose proof (requestScanJob_unreadable X scanner w _ Hans)
    | pose proof (requestScanJob_bad_status X scanner w _ _ Hans Hst) ] ].

(** X3 (requestScanJob).  Whatever the coordinator answers, the request
    returns after a single POST, sent first, to the next-image URL with
    no content type and no body; all it adds besides is bookkeeping.
    The HTTP outcome metric is recorded exactly when a response came
    back, and the request returns an ImageSpec pointer exactly when the
    answer is a 200 whose body is read and decoded, the pointer then
    being the decoded one. *)
Theorem requestScanJob_one_attempt scanner (w : World) :
  let url := buildURL scanner (NextImagePath X) in
  let request : Event :=
    EvPost (httpClient scanner) url EmptyString EmptyString in
  let reply :=
    http_Post X (posts w) (httpClient scanner) url EmptyString EmptyString in
  exists res rest,
    requestScanJob X scanner w = (Some res, record_events (request :: rest) w)
    /\ Forall bookkeeping rest
    /\ count is_stats rest = match reply with
                            | PostResp _ _ => 1%nat
                            | PostErr _ => 0%nat
                            end
    /\ match res with
       | Ok spec =>
           exists body next,
             reply = PostResp 200 (Ok body)
             /\ json_Unmarshal X body = Ok next
             /\ spec = NextImage_ImageSpec next
       | Err _ =>
           ~ exists body next,
               reply = PostResp 200 (Ok body) /\ json_Unmarshal X body = Ok next
       end.
Proof.
  intros url request reply. subst url request reply.
  split_reply X scanner w; cbn zeta in *;
    (eexists _, _; split; [eassumption|];
     split; [by repeat constructor|]; split; [reflexivity|]).
  all: try (intros (b & n & Heq & Hn); simplify_eq; congruence).
  by exists body, next.
Qed.

(** X4 (requestScanJob).  The body of the response is closed exactly
    when the status is 200, once, as the last thing the request does;
    after a transport error there is no body, and after any other
    status the request returns without closing the body. *)
Theorem requestScanJob_closes_body_on_200_only scanner (w : World) :
  let reply :=
    http_Post X (posts w) (httpClient scanner)
      (buildURL scanner (NextImagePath X)) EmptyString EmptyString in
  exists res evs,
    requestScanJob X scanner w = (Some res, record_events evs w)
    /\ if is200 reply
       then exists mid,
              evs = mid ++ [EvBodyClose (posts w)] /\ count is_close mid = 0%nat
       else count is_close evs = 0%nat.
Proof.
  intros reply. subst reply.
  split_reply X scanner w; cbn zeta in *;
    (eexists _, _; split; [eassumption|]); cbn [is200];
    try (apply Z.eqb_neq in Hst; rewrite Hst); try reflexivity.
  all: change (200 =? 200)%Z with true; cbn iota;
    match goal with
    | |- exists mid, ?l = _ /\ _ => exists (removelast l); by split
    end.
Qed.

(** X1 (requestScanJob, requestAndRunScanJob).  A 200 whose body is not
    the JSON of a NextImage makes the request fail with the decoder's
    error, after the error metric and a log line and with the body
    closed; the cycle returns that error after its one POST, having
    downloaded and scanned nothing. *)
Theorem malformed_body_fails_request (fuel : nat) scanner (w : World) body err :
  let url := buildURL scanner (NextImagePath X) in
  let answered : list Event :=
    [EvPost (httpClient scanner) url EmptyString EmptyString;
     EvHTTPStats (NextImagePath X) 200;
     EvScannerError "unmarshaling JSON body failed";
     EvLog Error "unmarshaling JSON body bytes %s failed for URL %s: %s"
       [AStr body; AStr url; AStr err];
     EvBodyClose (posts w)] in
  http_Post X (posts w) (httpClient scanner) url EmptyString EmptyString
  = PostResp 200 (Ok body) ->
  json_Unmarshal X body = Err err ->
  requestScanJob X scanner w = (Some (Err err), record_events answered w)
  /\ exists w',
      requestAndRunScanJob X fuel scanner w = (Some (scanner, Some err), w')
      /\ w' = record_events
                (EvLog Debug "requesting scan job" [] :: answered
                 ++ [EvLog Error "unable to request scan job: %s" [AStr err]])
                w
      /\ posts w' = S (posts w)
      /\ downloads w' = downloads w
      /\ scans w' = scans w.
Proof.
  intros url answered Hans Hjs.
  split; [by eapply requestScanJob_malformed|].
  assert (Hreq : requestScanJob X scanner
                   (add_event (EvLog Debug "requesting scan job" []) w)
                 = (Some (Err err),
                    record_events answered
                      (add_event (EvLog Debug "requesting scan job" []) w))).
  { rewrite (requestScanJob_malformed X scanner _ body err).
    - subst answered url. by rewrite posts_requesting.
    - by rewrite posts_requesting.
    - done. }
  eexists. split.
  { rewrite (cycle_request_failed X fuel scanner w err _ Hreq).
    by gather_events. }
  split; [reflexivity|]. subst answered.
  split; [|split]; count_recorded.
Qed.

(** X2 (finishScan, requestAndRunScanJob).  A report that cannot be
    serialized is dropped without any POST: whatever the fuel, the cycle
    scans, logs the report, records the error metric and returns the
    serialization error, with the executor assigned to the scanner. *)
Theorem unencodable_report_is_dropped (fuel : nat) scanner (w w1 w2 : World)
    image client err :
  requestScanJob X scanner (add_event (EvLog Debug "requesting scan job" []) w)
  = (Some (Ok (Some image)), w1) ->
  let processing :=
    add_event (EvLog Info "processing scan job %+v" [AImage image]) w1 in
  (scanClient scanner = Some client /\ w2 = processing
   \/ scanClient scanner = None
      /\ downloadScanner X scanner (HubURL image) processing
         = (Some (Ok client), w2)) ->
  let report := report_of X client image w2 in
  json_Marshal X report = Err err ->
  exists w',
    requestAndRunScanJob X fuel scanner w
    = (Some (with_scanClient client scanner, Some err), w')
    /\ w' = record_events
              [EvScan client (job_of X image); about_to_finish report;
               EvScannerError "unable to marshal json for finished job";
               EvLog Error "unable to marshal json for finished job: %s"
                 [AStr err];
               EvLog Error "unable to finish scan job: %s" [AStr err]] w2
    /\ posts w' = posts w2
    /\ scans w' = S (scans w2).
Proof.
  intros Hreq processing Hclient report Hjs.
  pose proof (cycle_job X fuel scanner w image client w1 w2 Hreq Hclient)
    as Hcycle. cbn zeta in Hcycle. fold report in Hcycle.
  eexists. split; [|split; [reflexivity|]].
  - rewrite Hcycle. unfold finishScan. rewrite Hjs. run_unfold.
    by gather_events.
  - split; count_recorded.
Qed.

(** X5 (NewScanner).  Construction always returns, and changes nothing
    of the process environment but BD_HUB_PASSWORD: a failed
    construction leaves the environment as it was, a successful one
    only sets BD_HUB_PASSWORD, to the password the Scanner holds; the
    Scanner has the config it was given, its coordinator host and port,
    the stop channel, and no executor. *)
Theorem NewScanner_sets_one_variable (cfg : Config) (ch : Chan) (w : World) :
  exists res w',
    NewScanner cfg ch w = (Some res, w')
    /\ (forall key, key <> "BD_HUB_PASSWORD" -> env w' !! key = env w !! key)
    /\ match res with
       | Err _ => env w' = env w
       | Ok scanner =>
           env w' = <["BD_HUB_PASSWORD" := hubPassword scanner]> (env w)
           /\ config scanner = cfg
           /\ perceptorHost scanner = Perceptor_Host (Perceptor cfg)
           /\ perceptorPort scanner = Perceptor_Port (Perceptor cfg)
           /\ stop scanner = ch
           /\ scanClient scanner = None
       end.
Proof.
  destruct (getenv (env w) (Hub_PasswordEnvVar (Hub cfg))) as [value|] eqn:Hget.
  - destruct (has_byte NUL value) eqn:Hnul.
    + eexists _, _. split; [by apply NewScanner_publish_failed|]. by split.
    + eexists _, _. split; [by apply NewScanner_found|]. simpl. split; [|done].
      intros key Hkey. by rewrite lookup_insert_ne.
  - eexists _, _. split; [by apply NewScanner_missing|]. by split.
Qed.

(** *** Accounting of the report loop *)

Lemma report_attempt_counts scanner url js r :
  let evs := report_attempt X scanner url js r in
  count is_post evs = 1%nat
  /\ count is_close evs = 0%nat
  /\ count is_stats evs = (if r is PostResp _ _ then 1 else 0)%nat
  /\ (count is_stats evs + count is_error_metric evs = 1)%nat.
Proof.
  destruct r as [err|status body]; [by repeat split|].
  unfold report_attempt. by destruct (negb (status =? 200)%Z).
Qed.

Lemma close_events_counts (l : list nat) :
  let evs : list Event := map EvBodyClose l in
  count is_post evs = 0%nat
  /\ count is_close evs = length l
  /\ count is_stats evs = 0%nat
  /\ count is_error_metric evs = 0%nat.
Proof.
  induction l as [|n l (P & C & S & E)]; [done|].
  cbn zeta in *. cbn [map]. rewrite !count_cons. cbn. by rewrite P, C, S, E.
Qed.

Lemma finishScan_loop_accounts (fuel : nat) :
  forall scanner url js deferred (w : World),
    let run := finishScan_loop X fuel scanner url js deferred w in
    exists evs,
      trace run.2 = trace w ++ evs
      /\ count is_post evs
         = (count is_stats evs + count is_error_metric evs)%nat
      /\ count is_close evs
         = match run.1 with
           | Some _ => (length deferred + count is_stats evs)%nat
           | None => 0%nat
           end.
Proof.
  induction fuel as [|fuel IH]; intros scanner url js deferred w.
  - exists []. simpl. by rewrite app_nil_r.
  - cbn zeta. rewrite finishScan_loop_step. cbn zeta.
    destruct (report_attempt_counts scanner url js
                (http_Post X (posts w) (httpClient scanner) url
                   "application/json" js)) as (AP & AC & AS & AE).
    set (attempt := report_attempt X scanner url js _) in *.
    assert (Hgo : forall deferred',
      length deferred'
      = (length deferred + count is_stats attempt)%nat ->
      let run := finishScan_loop X fuel scanner url js deferred'
                   (record_events attempt w) in
      exists evs,
        trace run.2 = trace w ++ evs
        /\ count is_post evs
           = (count is_stats evs + count is_error_metric evs)%nat
        /\ count is_close evs
           = match run.1 with
             | Some _ => (length deferred + count is_stats evs)%nat
             | None => 0%nat
             end).
    { intros deferred' Hlen.
      destruct (IH scanner url js deferred' (record_events attempt w))
        as (evs & T & HP & HC).
      exists (attempt ++ evs). cbn zeta.
      split; [by rewrite T; cbn [trace record_events]; rewrite <- app_assoc|].
      rewrite !count_app, AP, AC, HP, HC. split; [lia|].
      rewrite Hlen.
      destruct (finishScan_loop X fuel scanner url js deferred' _).1; lia. }
    destruct (http_Post X (posts w) (httpClient scanner) url
                "application/json" js) as [err|status body] eqn:Hans.
    + apply Hgo. rewrite AS. lia.
    + destruct (negb (status =? 200)%Z).
      * apply Hgo. rewrite AS. simpl. lia.
      * destruct (close_events_counts (posts w :: deferred))
          as (CP & CC & CS & CE). cbn zeta in *.
        exists (attempt ++ map EvBodyClose (posts w :: deferred)).
        cbn [fst snd]. split; [by cbn [trace record_events]; rewrite <- app_assoc|].
        rewrite !count_app, AP, AC, AS, CP, CC, CS, CE. simpl. lia.
Qed.

(** X6 (finishScan).  Every POST of a report is accounted for by exactly
    one metric, the HTTP outcome metric when a response came back and
    the error metric when the transport failed; a report that cannot be
    serialized is accounted for by one error metric and no POST. *)
Theorem finishScan_one_metric_per_attempt (fuel : nat) scanner results
    (w : World) :
  exists evs,
    trace (finishScan X fuel scanner results w).2 = trace w ++ evs
    /\ match json_Marshal X results with
       | Ok _ =>
           count is_post evs
           = (count is_stats evs + count is_error_metric evs)%nat
       | Err _ =>
           count is_post evs = 0%nat /\ count is_stats evs = 0%nat
           /\ count is_error_metric evs = 1%nat
       end.
Proof.
  unfold finishScan. destruct (json_Marshal X results) as [js|err].
  - run_unfold.
    destruct (finishScan_loop_accounts fuel scanner
                (buildURL scanner (FinishedScanPath X)) js []
                (add_event
                   (EvLog Debug
                      "about to send over json text for finishing a job: %s"
                      [AStr js]) w)) as (evs & T & HP & _).
    eexists. split; [by rewrite T; simpl; rewrite <- app_assoc|].
    cbn [app]. rewrite !count_cons. cbn [is_post is_stats is_error_metric].
    exact HP.
  - run_unfold. gather_events. eexists. by split.
Qed.

(** X7 (finishScan).  The report loop closes no response body while it
    is retrying: the bodies of all the responses received, refusals
    included, are closed together when the call returns, one close per
    response, and a call that has not returned has closed none. *)
Theorem finishScan_closes_bodies_at_return (fuel : nat) scanner results
    (w : World) :
  let run := finishScan X fuel scanner results w in
  exists evs,
    trace run.2 = trace w ++ evs
    /\ count is_close evs = match run.1 with
                            | Some _ => count is_stats evs
                            | None => 0%nat
                            end.
Proof.
  unfold finishScan. destruct (json_Marshal X results) as [js|err].
  - run_unfold.
    destruct (finishScan_loop_accounts fuel scanner
                (buildURL scanner (FinishedScanPath X)) js []
                (add_event
                   (EvLog Debug
                      "about to send over json text for finishing a job: %s"
                      [AStr js]) w)) as (evs & T & _ & HC).
    eexists. split; [by rewrite T; simpl; rewrite <- app_assoc|].
    cbn [app]. rewrite !count_cons. cbn [is_close is_stats]. exact HC.
  - run_unfold. gather_events. eexists. by split.
Qed.

(** *** The shape of one cycle *)

(** Events that are no request for work, no timer tick and no scan. *)
Local Abbreviation plain :=
  (fun e : Event =>
     is_request e = false /\ is_tick e = false /\ is_scan e = false).

Lemma plain_counts (Q : Event -> Prop) (evs : list Event) :
  (forall e, Q e -> plain e) -> Forall Q evs ->
  count is_request evs = 0%nat /\ count is_tick evs = 0%nat
  /\ count is_scan evs = 0%nat.
Proof.
  intros HQ Hall. repeat split.
  - apply (count_none _ Q); [|done]. intros e He. apply (HQ e He).
  - apply (count_none _ Q); [|done]. intros e He. apply (HQ e He).
  - apply (count_none _ Q); [|done]. intros e He. apply (HQ e He).
Qed.

Lemma bookkeeping_plain (e : Event) : bookkeeping e -> plain e.
Proof. by destruct e. Qed.

Lemma provision_event_plain scanner hubURL (e : Event) :
  provision_event scanner hubURL e -> plain e.
Proof. by destruct e. Qed.

Lemma report_post_plain scanner report (e : Event) :
  report_post X scanner report e -> plain e.
Proof.
  destruct e; try done. intros (_ & _ & -> & _). by repeat split.
Qed.

(** The request comes first, and the rest of what [requestScanJob] adds
    is bookkeeping. *)
Lemma requestScanJob_head scanner (w : World) :
  exists res rest,
    requestScanJob X scanner w
    = (Some res,
       record_events
         (EvPost (httpClient scanner) (buildURL scanner (NextImagePath X))
            EmptyString EmptyString :: rest) w)
    /\ Forall bookkeeping rest.
Proof.
  split_reply X scanner w; cbn zeta in *;
    (eexists _, _; split; [eassumption|]); by repeat constructor.
Qed.

(** Once a job is received and an executor is at hand: the scan, the
    log line showing the report, then the events of sending it. *)
Lemma cycle_job_trace (fuel : nat) scanner (w w1 w2 : World) image client :
  requestScanJob X scanner (add_event (EvLog Debug "requesting scan job" []) w)
  = (Some (Ok (Some image)), w1) ->
  (scanClient scanner = Some client
   /\ w2 = add_event (EvLog Info "processing scan job %+v" [AImage image]) w1
   \/ scanClient scanner = None
      /\ downloadScanner X scanner (HubURL image)
           (add_event (EvLog Info "processing scan job %+v" [AImage image]) w1)
         = (Some (Ok client), w2)) ->
  let report := report_of X client image w2 in
  exists evs,
    trace (requestAndRunScanJob X fuel scanner w).2
    = trace w2 ++ EvScan client (job_of X image) :: about_to_finish report :: evs
    /\ Forall (report_post X (with_scanClient client scanner) report) evs.
Proof.
  intros Hreq Hclient report.
  pose proof (cycle_job X fuel scanner w image client w1 w2 Hreq Hclient)
    as Hcycle. cbn zeta in Hcycle. fold report in Hcycle. rewrite Hcycle.
  destruct (finishScan_report_posts X fuel (with_scanClient client scanner)
              report
              (record_events
                 [EvScan client (job_of X image); about_to_finish report] w2))
    as ((evs & T & F) & _ & _).
  destruct (finishScan X fuel _ report _) as [[[err|]|] w4]; simpl in T |- *.
  - exists (evs ++ [EvLog Error "unable to finish scan job: %s" [AStr err]]).
    split; [by rewrite T, <- !app_assoc|].
    apply Forall_app. split; [done|]. by repeat constructor.
  - exists evs. split; [by rewrite T, <- !app_assoc|done].
  - exists evs. split; [by rewrite T, <- !app_assoc|done].
Qed.

(** After the request has returned, the rest of the cycle asks for no
    other job, waits for no tick and scans at most once. *)
Lemma cycle_tail (fuel : nat) scanner (w w1 : World) res :
  requestScanJob X scanner (add_event (EvLog Debug "requesting scan job" []) w)
  = (Some res, w1) ->
  exists tail,
    trace (requestAndRunScanJob X fuel scanner w).2 = trace w1 ++ tail
    /\ count is_request tail = 0%nat
    /\ count is_tick tail = 0%nat
    /\ (count is_scan tail <= 1)%nat.
Proof.
  intros Hreq. destruct res as [[image|]|err].
  - destruct (scanClient scanner) as [client|] eqn:Hcached.
    + destruct (cycle_job_trace fuel scanner w w1 _ image client Hreq
                  (or_introl (conj Hcached eq_refl))) as (evs & T & F).
      destruct (plain_counts _ evs (report_post_plain _ _) F) as (R & K & S).
      eexists. split; [rewrite T; simpl; by rewrite <- app_assoc|].
      cbn [app]. rewrite !count_cons, R, K, S. cbn. lia.
    + destruct (downloadScanner_frame X scanner (HubURL image)
                  (add_event
                     (EvLog Info "processing scan job %+v" [AImage image]) w1))
        as (made & evs2 & Hdl & F2 & _).
      destruct (plain_counts _ evs2 (provision_event_plain _ _) F2)
        as (R2 & K2 & S2).
      destruct made as [client|err].
      * destruct (cycle_job_trace fuel scanner w w1 _ image client Hreq
                    (or_intror (conj Hcached Hdl))) as (evs & T & F).
        destruct (plain_counts _ evs (report_post_plain _ _) F) as (R & K & S).
        eexists. split; [rewrite T; simpl; by rewrite <- !app_assoc|].
        cbn [app]. rewrite !count_cons, !count_app, !count_cons, R, K, S,
          R2, K2, S2. cbn. lia.
      * rewrite (cycle_provision_failed X fuel scanner w image err w1 _
                   Hreq Hcached Hdl).
        eexists. split; [simpl; by rewrite <- !app_assoc|].
        cbn [app]. rewrite !count_cons, !count_app, !count_cons, R2, K2, S2.
        cbn. lia.
  - rewrite (cycle_no_work X fuel scanner w w1 Hreq).
    eexists. split; [reflexivity|]. by repeat split; cbn; lia.
  - rewrite (cycle_request_failed X fuel scanner w err w1 Hreq).
    eexists. split; [reflexivity|]. by repeat split; cbn; lia.
Qed.

Lemma cycle_shape (fuel : nat) scanner (w : World) :
  exists rest,
    trace (requestAndRunScanJob X fuel scanner w).2
    = trace w
      ++ EvLog Debug "requesting scan job" []
         :: EvPost (httpClient scanner) (buildURL scanner (NextImagePath X))
              EmptyString EmptyString
         :: rest
    /\ count is_request rest = 0%nat
    /\ count is_tick rest = 0%nat
    /\ (count is_scan rest <= 1)%nat.
Proof.
  destruct (requestScanJob_head scanner
              (add_event (EvLog Debug "requesting scan job" []) w))
    as (res & rest1 & Hreq & F1).
  destruct (plain_counts _ rest1 bookkeeping_plain F1) as (R1 & K1 & S1).
  destruct (cycle_tail fuel scanner w _ res Hreq) as (tail & T & R & K & S).
  exists (rest1 ++ tail). split.
  - rewrite T. simpl. by rewrite <- !app_assoc.
  - rewrite !count_app, R1, K1, S1, R, K. repeat split; lia.
Qed.

(** X8 (StartRequestingScanJobs, requestAndRunScanJob).  The polling
    loop asks the coordinator for work once per timer tick, no more and
    no less, and scans at most once per tick, whether the run has
    returned or is still going on. *)
Theorem pollLoop_one_request_per_tick (fuel : nat) :
  forall scanner (w : World),
    exists evs,
      trace (pollLoop X fuel scanner w).2 = trace w ++ evs
      /\ count is_request evs = count is_tick evs
      /\ (count is_scan evs <= count is_tick evs)%nat.
Proof.
  induction fuel as [|fuel IH]; intros scanner w.
  - exists []. simpl. by rewrite app_nil_r.
  - destruct (select_stop_or_timer X (selects w) (stop scanner)
                requestScanJobPause) eqn:Hsel.
    + rewrite (pollLoop_stop X fuel scanner w Hsel). eexists. by split.
    + rewrite (pollLoop_tick X fuel scanner w Hsel).
      set (w0 := add_event _ w).
      destruct (cycle_shape fuel scanner w0) as (rest & T & R & K & S).
      assert (Hnext : forall scanner' (w2 : World) more,
        trace w2 = trace (requestAndRunScanJob X fuel scanner w0).2 ++ more ->
        Forall bookkeeping more ->
        exists evs,
          trace (pollLoop X fuel scanner' w2).2 = trace w ++ evs
          /\ count is_request evs = count is_tick evs
          /\ (count is_scan evs <= count is_tick evs)%nat).
      { intros scanner' w2 more Hw2 Fm.
        destruct (plain_counts _ more bookkeeping_plain Fm) as (Rm & Km & Sm).
        destruct (IH scanner' w2) as (evs & T2 & R2 & S2).
        eexists. split.
        - rewrite T2, Hw2, T. subst w0. simpl. by rewrite <- !app_assoc.
        - cbn [app]. rewrite !count_cons, !count_app, R, K, Rm, Km, Sm.
          cbn. split; lia. }
      destruct (requestAndRunScanJob X fuel scanner w0)
        as [[[scanner' [err|]]|] w'] eqn:Hrun; cbn [fst snd] in *.
      * apply Hnext with (more := [EvLog Error
                                     "unable to run requestAndRunScanJob: %s"
                                     [AStr err]]); [done|by repeat constructor].
      * apply Hnext with (more := []); [by rewrite app_nil_r|done].
      * eexists. split; [rewrite T; subst w0; simpl; by rewrite <- !app_assoc|].
        cbn [app]. rewrite !count_cons, R, K. cbn. split; lia.
Qed.

(** X9 (StartRequestingScanJobs, requestAndRunScanJob).  Over a whole
    run the polling loop keeps the scanner's HTTP client, coordinator
    host and port, config, stop channel and password, and never takes an
    executor away; every POST goes through the scanner's HTTP client,
    every select waits on the scanner's stop channel and on a
    twenty-second timer, and the process environment is left alone. *)
Theorem pollLoop_keeps_scanner (fuel : nat) scanner (w : World) :
  let run := pollLoop X fuel scanner w in
  appends (loop_event scanner) w run.2
  /\ env run.2 = env w
  /\ (forall scanner', run.1 = Some scanner' -> scanner_kept scanner scanner')
  /\ requestScanJobPause = 20000000000.
Proof.
  destruct (pollLoop_emits X fuel scanner w) as (Ha & He & Hk).
  split; [exact Ha|]. split; [exact He|]. split; [|reflexivity].
  intros scanner' Hrun. cbn zeta in Hrun. by rewrite Hrun in Hk.
Qed.

(** X10 (NewScanner, requestScanJob, buildURL).  Every cycle of a
    Scanner made by [NewScanner] begins by POSTing, through a client
    with a five-second timeout, to the next-image path of the
    coordinator host and port of the config. *)
Theorem fresh_scanner_polls_configured_coordinator (cfg : Config) (ch : Chan)
    (w0 w1 : World) scanner (fuel : nat) (w : World) :
  NewScanner cfg ch w0 = (Some (Ok scanner), w1) ->
  exists rest,
    trace (requestAndRunScanJob X fuel scanner w).2
    = trace w
      ++ EvLog Debug "requesting scan job" []
         :: EvPost {| Timeout := 5000000000 |}
              ("http://" +:+ Perceptor_Host (Perceptor cfg) +:+ ":"
               +:+ fmt_d (Perceptor_Port (Perceptor cfg)) +:+ "/"
               +:+ NextImagePath X)
              EmptyString EmptyString
         :: rest.
Proof.
  intros Hnew.
  assert (Hfields : httpClient scanner = {| Timeout := 5000000000 |}
                    /\ perceptorHost scanner = Perceptor_Host (Perceptor cfg)
                    /\ perceptorPort scanner = Perceptor_Port (Perceptor cfg)).
  { destruct (getenv (env w0) (Hub_PasswordEnvVar (Hub cfg))) as [value|]
      eqn:Hget.
    - destruct (has_byte NUL value) eqn:Hnul.
      + rewrite (NewScanner_publish_failed cfg ch w0 value Hget Hnul) in Hnew.
        discriminate.
      + rewrite (NewScanner_found cfg ch w0 value Hget Hnul) in Hnew.
        by injection Hnew as <- _.
    - rewrite (NewScanner_missing cfg ch w0 Hget) in Hnew. discriminate. }
  destruct Hfields as (Hc & Hh & Hp).
  destruct (cycle_shape fuel scanner w) as (rest & T & _).
  exists rest. rewrite T. unfold buildURL. by rewrite Hc, Hh, Hp.
Qed.

(** *** Provisioning *)

Lemma wrap64_in_range (z : Z) : - 2 ^ 63 <= z < 2 ^ 63 -> wrap64 z = z.
Proof. intros Hz. unfold wrap64. rewrite Z.mod_small; lia. Qed.

Lemma wrap64_overflow (z : Z) :
  2 ^ 63 <= z < 2 ^ 63 + 2 ^ 64 -> wrap64 z = z - 2 ^ 64.
Proof.
  intros Hz. unfold wrap64.
  replace (z + 2 ^ 63) with (z + 2 ^ 63 - 2 ^ 64 + 1 * 2 ^ 64) by lia.
  rewrite Z.mod_add by lia. rewrite Z.mod_small; lia.
Qed.

(** X11 (downloadScanner).  The executor factory is called only after
    the scan tool has been downloaded: a failed download returns its
    error with no factory call, and a successful one is followed by
    exactly one factory call, given the configured user and port, the
    downloaded tool descriptor and the puller for the configured image
    facade, whose answer is what [downloadScanner] returns.  Either way
    one download is attempted, nothing is POSTed and nothing is
    scanned. *)
Theorem downloadScanner_builds_after_download scanner hubURL (w : World) :
  let user := Hub_User (Hub (config scanner)) in
  let port := Hub_Port (Hub (config scanner)) in
  let timeout :=
    wrap64 (Hub_ClientTimeoutSeconds (Hub (config scanner)) * time_Second) in
  let puller :=
    NewImageFacadePuller X
      (ImageFacade_GetHost X (ImageFacade (config scanner)))
      (ImageFacade_Port (ImageFacade (config scanner))) in
  exists w',
    downloads w' = S (downloads w) /\ posts w' = posts w /\ scans w' = scans w
    /\ match downloadScanClient X (downloads w) hubURL user
               (hubPassword scanner) port timeout with
       | Err err =>
           downloadScanner X scanner hubURL w = (Some (Err err), w')
           /\ builds w' = builds w
       | Ok info =>
           downloadScanner X scanner hubURL w
           = (Some (NewHubScanClient X (builds w) user port info puller), w')
           /\ builds w' = S (builds w)
           /\ In (EvNewHubScanClient user port info puller) (trace w')
       end.
Proof.
  intros user port timeout puller.
  destruct (downloadScanClient X (downloads w) hubURL user
              (hubPassword scanner) port timeout) as [info|err] eqn:Hgot.
  - destruct (NewHubScanClient X (builds w) user port info puller)
      as [client|err] eqn:Hmade.
    + eexists. split; [|split; [|split; [|split; [|split]]]];
        [| | |by eapply downloadScanner_built| |];
        try count_recorded.
      simpl. apply in_or_app. right. simpl. tauto.
    + eexists. split; [|split; [|split; [|split; [|split]]]];
        [| | |by eapply downloadScanner_build_failed| |];
        try count_recorded.
      simpl. apply in_or_app. right. simpl. tauto.
  - eexists. split; [|split; [|split; [|split]]];
      [| | |by eapply downloadScanner_download_failed|];
      count_recorded.
Qed.

(** X12 (downloadScanner).  The download is given the configured
    timeout in nanoseconds as long as the configured number of seconds
    fits: up to 9223372036 seconds the duration is exact, and from there
    up to 18446744073 seconds the 64-bit product wraps around to a
    negative duration. *)
Theorem downloadScanner_timeout scanner hubURL (w : World) :
  let secs := Hub_ClientTimeoutSeconds (Hub (config scanner)) in
  exists res timeout rest,
    downloadScanner X scanner hubURL w
    = (Some res,
       record_events
         (EvDownload hubURL (Hub_User (Hub (config scanner)))
            (hubPassword scanner) (Hub_Port (Hub (config scanner))) timeout
          :: rest) w)
    /\ (-9223372036 <= secs <= 9223372036 -> timeout = secs * 1000000000)
    /\ (9223372036 < secs <= 18446744073 ->
        timeout = secs * 1000000000 - 2 ^ 64 /\ timeout < 0).
Proof.
  intros secs.
  assert (Hdl : exists res rest,
    downloadScanner X scanner hubURL w
    = (Some res,
       record_events
         (EvDownload hubURL (Hub_User (Hub (config scanner)))
            (hubPassword scanner) (Hub_Port (Hub (config scanner)))
            (wrap64 (secs * time_Second)) :: rest) w)).
  { destruct (downloadScanClient X (downloads w) hubURL
                (Hub_User (Hub (config scanner))) (hubPassword scanner)
                (Hub_Port (Hub (config scanner)))
                (wrap64 (secs * time_Second))) as [info|err] eqn:Hgot.
    - destruct (NewHubScanClient X (builds w)
                  (Hub_User (Hub (config scanner)))
                  (Hub_Port (Hub (config scanner))) info
                  (NewImageFacadePuller X
                     (ImageFacade_GetHost X (ImageFacade (config scanner)))
                     (ImageFacade_Port (ImageFacade (config scanner)))))
        as [client|err] eqn:Hmade.
      + eexists _, _. by eapply downloadScanner_built.
      + eexists _, _. by eapply downloadScanner_build_failed.
    - eexists _, _. by eapply downloadScanner_download_failed. }
  destruct Hdl as (res & rest & Hdl).
  exists res, (wrap64 (secs * time_Second)), rest.
  split; [exact Hdl|]. unfold time_Second. split.
  - intros Hsecs. apply wrap64_in_range. lia.
  - intros Hsecs. rewrite wrap64_overflow by lia. lia.
Qed.

(** *** URLs *)

Lemma append_cancel_l (a b c : string) : a +:+ b = a +:+ c -> b = c.
Proof.
  induction a as [|ch a IH]; simpl; [done|]. intros [= H]. by apply IH.
Qed.

(** X13 (buildURL).  For one scanner, different paths give different
    URLs: the request for work and the report go to different URLs as
    soon as their paths differ. *)
Theorem buildURL_separates_paths (scanner : Scanner) (path1 path2 : string) :
  path1 <> path2 -> buildURL scanner path1 <> buildURL scanner path2.
Proof.
  intros Hne Heq. apply Hne. unfold buildURL in Heq.
  by do 5 apply append_cancel_l in Heq.
Qed.

(** X14 (requestAndRunScanJob).  The steps of a job happen in order:
    with no executor cached, a job that is handed out, whose scan tool
    downloads and whose executor builds, gives the request, then the
    download, then the construction of the executor, then the scan of
    the job descriptor built from the ImageSpec, then the log line with
    the report, and only then the POSTs of that report. *)
Theorem job_runs_in_order (fuel : nat) scanner (w : World) body next image
    info client :
  let url := buildURL scanner (NextImagePath X) in
  let user := Hub_User (Hub (config scanner)) in
  let port := Hub_Port (Hub (config scanner)) in
  let timeout :=
    wrap64 (Hub_ClientTimeoutSeconds (Hub (config scanner)) * time_Second) in
  let puller :=
    NewImageFacadePuller X
      (ImageFacade_GetHost X (ImageFacade (config scanner)))
      (ImageFacade_Port (ImageFacade (config scanner))) in
  scanClient scanner = None ->
  http_Post X (posts w) (httpClient scanner) url EmptyString EmptyString
  = PostResp 200 (Ok body) ->
  json_Unmarshal X body = Ok next ->
  NextImage_ImageSpec next = Some image ->
  downloadScanClient X (downloads w) (HubURL image) user (hubPassword scanner)
    port timeout = Ok info ->
  NewHubScanClient X (builds w) user port info puller = Ok client ->
  let report :=
    {| Finished_Err := match ScanClient_Scan X (scans w) client (job_of X image)
                       with
                       | Some err => err
                       | None => EmptyString
                       end;
       Finished_ImageSpec := image |} in
  exists evs,
    trace (requestAndRunScanJob X fuel scanner w).2
    = trace w
      ++ [EvLog Debug "requesting scan job" [];
          EvPost (httpClient scanner) url EmptyString EmptyString;
          EvHTTPStats (NextImagePath X) 200;
          EvLog Debug "http POST request to %s succeeded, got image %s"
            [AStr url; AStr (Sha image)];
          EvBodyClose (posts w);
          EvLog Info "processing scan job %+v" [AImage image];
          EvDownload (HubURL image) user (hubPassword scanner) port timeout;
          EvLog Info "instantiating scanner with hub %s, user %s"
            [AStr (HubURL image); AStr user];
          EvNewHubScanClient user port info puller;
          EvScan client (job_of X image);
          about_to_finish report]
      ++ evs
    /\ Forall (report_post X (with_scanClient client scanner) report) evs.
Proof.
  intros url user port timeout puller Hnil Hans Hjs Himage Hgot Hmade report.
  set (w0 := add_event (EvLog Debug "requesting scan job" []) w).
  assert (Hreq : requestScanJob X scanner w0
                 = (Some (Ok (Some image)),
                    record_events
                      [EvPost (httpClient scanner) url EmptyString EmptyString;
                       EvHTTPStats (NextImagePath X) 200;
                       EvLog Debug
                         "http POST request to %s succeeded, got image %s"
                         [AStr url; AStr (Sha image)];
                       EvBodyClose (posts w)] w0)).
  { rewrite (requestScanJob_decoded X scanner w0 body next).
    - subst w0 url. by rewrite Himage, posts_requesting.
    - subst w0. by rewrite posts_requesting.
    - done. }
  set (w1 := record_events _ w0) in Hreq.
  set (processing :=
         add_event (EvLog Info "processing scan job %+v" [AImage image]) w1).
  assert (Hd : downloads processing = downloads w) by (subst processing w1 w0; count_recorded).
  assert (Hb : builds processing = builds w) by (subst processing w1 w0; count_recorded).
  assert (Hdl : downloadScanner X scanner (HubURL image) processing
                = (Some (Ok client),
                   record_events
                     [EvDownload (HubURL image) user (hubPassword scanner) port
                        timeout;
                      EvLog Info "instantiating scanner with hub %s, user %s"
                        [AStr (HubURL image); AStr user];
                      EvNewHubScanClient user port info puller] processing)).
  { eapply downloadScanner_built; [by rewrite Hd|by rewrite Hb]. }
  set (w2 := record_events _ processing) in Hdl.
  destruct (cycle_job_trace fuel scanner w w1 w2 image client Hreq
              (or_intror (conj Hnil Hdl))) as (evs & T & F).
  assert (Hs : scans w2 = scans w)
    by (subst w2 processing w1 w0; count_recorded).
  assert (Hreport : report_of X client image w2 = report).
  { unfold report_of, scanned. by rewrite Hs. }
  rewrite Hreport in T, F. exists evs. split; [|exact F].
  rewrite T. subst w2 processing w1 w0. simpl. by rewrite <- !app_assoc.
Qed.

End Further.

(** ** Further concrete runs *)

(** A body that is no JSON: the tick ends with the decoder's error. *)
Lemma garbage_body_tick :
  let X := Mock.externals (Mock.replying (PostResp 200 (Ok "<html>"))) in
  let w := Mock.boot ∅ in
  exists w',
    requestAndRunScanJob X 1 (Mock.scanner None) w
    = (Some (Mock.scanner None, Some "invalid character"), w')
    /\ posts w' = 1%nat /\ downloads w' = 0%nat /\ scans w' = 0%nat.
Proof.
  intros X w.
  destruct (malformed_body_fails_request X 1 (Mock.scanner None) w "<html>"
              "invalid character" eq_refl eq_refl)
    as (_ & w' & Hrun & _ & Hposts & Hdl & Hscans).
  exists w'. by repeat split.
Defined.

(** A report that does not serialize: one POST in the tick, the request
    for work, and the error of the encoder. *)
Lemma unencodable_report_tick :
  let X := Mock.externals
    {| Mock.post_answers := [PostResp 200 (Ok "job1")];
       Mock.download_answers := []; Mock.build_answers := [];
       Mock.scan_answers := [None]; Mock.wakes := [];
       Mock.decodes := Mock.decoding; Mock.encodes := false |} in
  let s := Mock.scanner (Some "client") in
  let w := Mock.boot ∅ in
  exists w',
    requestAndRunScanJob X 0 s w
    = (Some (s, Some "json: unsupported value"), w')
    /\ posts w' = 1%nat /\ scans w' = 1%nat.
Proof.
  intros X s w.
  destruct (unencodable_report_is_dropped X 0 s w _ _ Mock.image "client"
              "json: unsupported value" eq_refl
              (or_introl (conj eq_refl eq_refl)) eq_refl)
    as (w' & Hrun & _ & Hposts & Hscans).
  exists w'. split; [exact Hrun|]. by split.
Defined.

(** Construction without the credential leaves the environment as it
    was. *)
Lemma NewScanner_without_credential_keeps_env :
  let w : @World string (string * Z) string (list string) :=
    Mock.boot {[ "PATH" := "/usr/bin" ]} in
  exists res w',
    NewScanner Mock.cfg 0%nat w = (Some res, w')
    /\ env w' !! "PATH" = Some "/usr/bin".
Proof.
  intros w.
  destruct (NewScanner_sets_one_variable Mock.cfg 0%nat w)
    as (res & w' & Hnew & Hkeep & _).
  exists res, w'. split; [exact Hnew|].
  rewrite (Hkeep "PATH"); [reflexivity|discriminate].
Defined.

(** A run of two ticks keeps the scanner but for the executor it gains. *)
Lemma two_ticks_keep_scanner :
  let X := Mock.externals (Mock.one_job None) in
  let run := pollLoop X 3 (Mock.scanner None) (Mock.boot ∅) in
  run.1 = Some (Mock.scanner (Some "client"))
  /\ scanner_kept (Mock.scanner None) (Mock.scanner (Some "client")).
Proof.
  intros X run. split; [reflexivity|].
  destruct (pollLoop_keeps_scanner X 3 (Mock.scanner None) (Mock.boot ∅))
    as (_ & _ & Hkept & _).
  by apply Hkept.
Defined.

(** A Scanner built from the mock config polls the mock coordinator. *)
Lemma fresh_scanner_first_poll :
  let X := Mock.externals (Mock.replying (PostResp 200 (Ok "idle"))) in
  let built :=
    NewScanner Mock.cfg 0%nat
      (Mock.boot {[ "PCP_HUBUSERPASSWORD" := "secret" ]}) in
  exists scanner rest,
    built.1 = Some (Ok scanner)
    /\ trace (requestAndRunScanJob X 1 scanner (Mock.boot ∅)).2
       = EvLog Debug "requesting scan job" []
         :: EvPost {| Timeout := 5000000000 |} "http://perceptor:3001/nextimage"
              EmptyString EmptyString
         :: rest.
Proof.
  intros X built.
  assert (Hbuilt : exists scanner, built = (Some (Ok scanner), built.2)).
  { eexists. reflexivity. }
  destruct Hbuilt as (scanner & Hbuilt).
  destruct (fresh_scanner_polls_configured_coordinator X Mock.cfg 0%nat _ _
              scanner 1 (Mock.boot ∅) Hbuilt) as (rest & Htrace).
  exists scanner, rest. split; [by rewrite Hbuilt|exact Htrace].
Defined.

(** Two minutes of timeout are 120000000000 nanoseconds. *)
Lemma two_minute_timeout :
  let X := Mock.externals Mock.hub_down in
  exists res rest,
    downloadScanner X (Mock.scanner None) "http://hub" (Mock.boot ∅)
    = (Some res,
       record_events
         (EvDownload "http://hub" "sysadmin" "secret" 443 120000000000 :: rest)
         (Mock.boot ∅)).
Proof.
  intros X.
  destruct (downloadScanner_timeout X (Mock.scanner None) "http://hub"
              (Mock.boot ∅)) as (res & timeout & rest & Hdl & Hexact & _).
  exists res, rest. rewrite Hdl, Hexact; [reflexivity|].
  split; discriminate.
Defined.

(** The two endpoints of the mock coordinator have different URLs. *)
Lemma mock_endpoints_differ :
  buildURL (Mock.scanner None) "nextimage"
  <> buildURL (Mock.scanner None) "finishedscan".
Proof.
  apply (buildURL_separates_paths (ScanClient := string)). discriminate.
Defined.

(** One job, from the request to the report. *)
Lemma one_job_in_order :
  let X := Mock.externals (Mock.one_job None) in
  exists evs,
    trace (requestAndRunScanJob X 1 (Mock.scanner None) (Mock.boot ∅)).2
    = [EvLog Debug "requesting scan job" [];
       EvPost {| Timeout := 5000000000 |} "http://perceptor:3001/nextimage"
         EmptyString EmptyString;
       EvHTTPStats "nextimage" 200;
       EvLog Debug "http POST request to %s succeeded, got image %s"
         [AStr "http://perceptor:3001/nextimage"; AStr "s1"];
       EvBodyClose 0;
       EvLog Info "processing scan job %+v" [AImage Mock.image];
       EvDownload "http://hub" "sysadmin" "secret" 443 120000000000;
       EvLog Info "instantiating scanner with hub %s, user %s"
         [AStr "http://hub"; AStr "sysadmin"];
       EvNewHubScanClient "sysadmin" 443 "tool" ("facade", 3004);
       EvScan "client" ["r"; "s1"; "http://hub"; "p"; "v1"; "n1"];
       about_to_finish {| Finished_Err := EmptyString;
                          Finished_ImageSpec := Mock.image |}]
      ++ evs.
Proof.
  intros X.
  destruct (job_runs_in_order X 1 (Mock.scanner None) (Mock.boot ∅) "job1"
              {| NextImage_ImageSpec := Some Mock.image |} Mock.image "tool"
              "client" eq_refl eq_refl eq_refl eq_refl eq_refl eq_refl)
    as (evs & Htrace & _).
  exists evs. exact Htrace.
Defined.
